(** * A gRPC server interceptor exporting Prometheus metrics

    Shallow embedding of the metrics interceptor of [server.go]: the label
    registry ([ServerMetrics]), the label extractor interface, the per-call
    reporter and the unary interceptor, followed by the properties the
    specification states about them.

    Go strings are byte strings: they are modelled by [string] (a list of
    8-bit characters).  Go maps are modelled by [gmap]; a Go slice that is
    only appended to is a [list]. *)

From Stdlib Require Import ZArith Ascii String.
From stdpp Require Import base option list gmap strings fin_maps.

Local Open Scope string_scope.
Local Open Scope Z_scope.

(** ** The part of package [strings] the program uses *)

Module strings.

(** [s[n:]] *)
Fixpoint sliceFrom (n : nat) (s : string) : string :=
  match n, s with
  | O, _ => s
  | S n', String _ s' => sliceFrom n' s'
  | S _, EmptyString => EmptyString
  end.

(** [s[:n]] *)
Fixpoint sliceTo (n : nat) (s : string) : string :=
  match n, s with
  | O, _ => EmptyString
  | S n', String c s' => String c (sliceTo n' s')
  | S _, EmptyString => EmptyString
  end.

(** [strings.HasPrefix(s, prefix)] *)
Fixpoint HasPrefix (s prefix : string) : bool :=
  match prefix, s with
  | EmptyString, _ => true
  | String p prefix', String c s' =>
      if Ascii.eqb c p then HasPrefix s' prefix' else false
  | String _ _, EmptyString => false
  end.

(** [strings.TrimPrefix(s, prefix)]: [s] without the leading [prefix], or
    [s] itself when it does not start with [prefix]. *)
Definition TrimPrefix (s prefix : string) : string :=
  if HasPrefix s prefix then sliceFrom (String.length prefix) s else s.

(** [strings.Index(s, substr)]: the byte index of the first occurrence of
    [substr] in [s], or [-1] when there is none. *)
Fixpoint Index (s substr : string) : Z :=
  if HasPrefix s substr then 0
  else match s with
       | EmptyString => -1
       | String _ s' =>
           let i := Index s' substr in
           if i <? 0 then -1 else i + 1
       end.

End strings.

(** ** [splitMethodName] *)

Definition splitMethodName (fullMethodName : string) : string * string :=
  let fullMethodName := strings.TrimPrefix fullMethodName "/" in
  let i := strings.Index fullMethodName "/" in
  if 0 <=? i
  then (strings.sliceTo (Z.to_nat i) fullMethodName,
        strings.sliceFrom (Z.to_nat (i + 1)) fullMethodName)
  else ("unknown", "unknown").

(** The specification's reading of "stripping one leading slash". *)
Definition strip_leading_slash (s : string) : string :=
  match s with
  | String "/" s' => s'
  | _ => s
  end.

(** [has_slash s]: the byte ['/'] occurs in [s]. *)
Fixpoint has_slash (s : string) : bool :=
  match s with
  | EmptyString => false
  | String c s' => if Ascii.eqb c "/" then true else has_slash s'
  end.

(** ** Status codes and errors

    The gRPC status packages are external collaborators of the program;
    their sources are not part of it. *)

Module codes.

(** Modelled from the spec: the canonical status codes of "the outcome is
    classified into a canonical status code (success or a categorized failure
    code)"; package [codes] is not part of the sources.  These are the
    canonical gRPC codes. *)
Inductive Code :=
| OK | Canceled | Unknown | InvalidArgument | DeadlineExceeded | NotFound
| AlreadyExists | PermissionDenied | ResourceExhausted | FailedPrecondition
| Aborted | OutOfRange | Unimplemented | Internal | Unavailable | DataLoss
| Unauthenticated.

(** Modelled from the spec: the printed name of a code, which "becomes the
    value for the status label"; [Code.String()] of package [codes]. *)
Definition toString (c : Code) : string :=
  match c with
  | OK => "OK"
  | Canceled => "Canceled"
  | Unknown => "Unknown"
  | InvalidArgument => "InvalidArgument"
  | DeadlineExceeded => "DeadlineExceeded"
  | NotFound => "NotFound"
  | AlreadyExists => "AlreadyExists"
  | PermissionDenied => "PermissionDenied"
  | ResourceExhausted => "ResourceExhausted"
  | FailedPrecondition => "FailedPrecondition"
  | Aborted => "Aborted"
  | OutOfRange => "OutOfRange"
  | Unimplemented => "Unimplemented"
  | Internal => "Internal"
  | Unavailable => "Unavailable"
  | DataLoss => "DataLoss"
  | Unauthenticated => "Unauthenticated"
  end.

End codes.

Module status.

Record Status := { code : codes.Code; message : string }.

(** The [Code()] method of a status pointer: a nil status reads as [OK]. *)
Definition Code (s : option Status) : codes.Code :=
  match s with
  | None => codes.OK
  | Some s => code s
  end.

End status.

(** Non-nil values of Go's [error] interface; the nil error is [None] of
    [option error]. *)
Inductive error :=
| statusError (s : status.Status)
| opaqueError (msg : string)
| wrapError (msg : string) (cause : error).

Module grpcstatus.

Fixpoint errorString (e : error) : string :=
  match e with
  | statusError s =>
      "rpc error: code = " +:+ codes.toString (status.code s)
        +:+ " desc = " +:+ status.message s
  | opaqueError msg => msg
  | wrapError msg cause => msg +:+ ": " +:+ errorString cause
  end.

Fixpoint unwrapStatus (e : error) : option status.Status :=
  match e with
  | statusError s => Some s
  | opaqueError _ => None
  | wrapError _ cause => unwrapStatus cause
  end.

(** Modelled from the spec: the classification of an outcome into "success
    or a categorized failure code"; package [grpcstatus] is not part of the
    sources.  [FromError(err)] is the status an error carries, possibly under
    wrappers; the nil status for the nil error; [Unknown] otherwise. *)
Definition FromError (err : option error) : option status.Status * bool :=
  match err with
  | None => (None, true)
  | Some e =>
      match unwrapStatus e with
      | Some s => (Some s, true)
      | None =>
          (Some {| status.code := codes.Unknown;
                   status.message := errorString e |}, false)
      end
  end.

End grpcstatus.

(** ** Well-formed UTF-8

    The metric vectors accept a label value only when [utf8.ValidString]
    holds of it.  Package [unicode/utf8] is not part of the sources. *)

Module utf8.

(** Where a scan stands: between two encoded characters, or inside one,
    after a lead byte that leaves one, two or three further bytes, the next
    of which may have a narrowed range. *)
Inductive state :=
| boundary
| tail1 | tail2 | tail3
| afterE0 | afterED | afterF0 | afterF4.

(** One byte of the scan; [None] rejects the string.  The ranges are those
    of the well-formed byte sequences: no overlong form, no surrogate,
    nothing above U+10FFFF. *)
Definition step (q : state) (b : N) : option state :=
  let within (lo hi : N) (q' : state) :=
    if (lo <=? b)%N && (b <=? hi)%N then Some q' else None in
  match q with
  | boundary =>
      if (b <? 128)%N then Some boundary
      else if (b <? 194)%N then None
      else if (b <? 224)%N then Some tail1
      else if (b =? 224)%N then Some afterE0
      else if (b =? 237)%N then Some afterED
      else if (b <? 240)%N then Some tail2
      else if (b =? 240)%N then Some afterF0
      else if (b <? 244)%N then Some tail3
      else if (b =? 244)%N then Some afterF4
      else None
  | tail1 => within 128%N 191%N boundary
  | tail2 => within 128%N 191%N tail1
  | tail3 => within 128%N 191%N tail2
  | afterE0 => within 160%N 191%N tail1
  | afterED => within 128%N 159%N tail1
  | afterF0 => within 144%N 191%N tail2
  | afterF4 => within 128%N 143%N tail2
  end.

Fixpoint scan (q : state) (s : string) : option state :=
  match s with
  | EmptyString => Some q
  | String c s' =>
      match step q (N_of_ascii c) with
      | Some q' => scan q' s'
      | None => None
      end
  end.

(** Modelled from the spec: label "values are always strings"; which
    strings a vector accepts is decided by [utf8.ValidString] of package
    [unicode/utf8], which is not part of the sources: [s] consists of
    well-formed encodings only. *)
Definition ValidString (s : string) : bool :=
  match scan boundary s with
  | Some boundary => true
  | _ => false
  end.

End utf8.

(** ** Metric vectors

    The Prometheus client library is an external collaborator; its sources
    are not part of the program.  Its vectors are modelled at the level the
    specification describes them.  Durations are integers (nanoseconds)
    rather than floating-point seconds. *)

Module prom.

(** Modelled from the spec: an observation supplies "one value per Label
    Set name"; the check the client library, which is not part of the
    sources, makes of the values [WithLabelValues] is given: as many values
    as declared names, each of them valid UTF-8. *)
Definition validateLabelValues (vals : list string)
    (expectedNumberOfValues : nat) : bool :=
  if decide (length vals = expectedNumberOfValues)
  then forallb utf8.ValidString vals
  else false.

(** Modelled from the spec: the Counter Metric, "a mapping from a concrete
    label-value tuple (one value per Label Set name) to a monotonically
    increasing integer", of the client library's [CounterVec], which is not
    part of the sources. *)
Record CounterVec := {
  cv_variableLabels : list string;
  cv_children : gmap (list string) N
}.

(** Modelled from the spec: the Histogram Metric, "a mapping from the same
    label-value tuple to a distribution summary", of the client library's
    [HistogramVec], which is not part of the sources.  A series is
    represented by the samples it has absorbed, of which count, sum and
    bucket counts are functions. *)
Record HistogramVec := {
  hv_variableLabels : list string;
  hv_children : gmap (list string) (list Z)
}.

Definition NewCounterVec (labelNames : list string) : CounterVec :=
  {| cv_variableLabels := labelNames; cv_children := ∅ |}.

Definition NewHistogramVec (labelNames : list string) : HistogramVec :=
  {| hv_variableLabels := labelNames; hv_children := ∅ |}.

(** Modelled from the spec: series are "created lazily on first observation
    for a given tuple"; [WithLabelValues] of the client library, which is
    not part of the sources, gets or creates the child at [lvs]; it panics
    ([None]) when the number of values differs from the number of declared
    names or when a value is not valid UTF-8. *)
Definition CounterVec_WithLabelValues (v : CounterVec) (lvs : list string)
  : option CounterVec :=
  if validateLabelValues lvs (length (cv_variableLabels v)) then
    match cv_children v !! lvs with
    | Some _ => Some v
    | None => Some {| cv_variableLabels := cv_variableLabels v;
                      cv_children := <[lvs := 0%N]> (cv_children v) |}
    end
  else None.

(** Modelled from the spec: the counter of a tuple is "monotonically
    increasing"; [Inc()] of the client library on the child at [lvs]. *)
Definition Counter_Inc (v : CounterVec) (lvs : list string) : CounterVec :=
  {| cv_variableLabels := cv_variableLabels v;
     cv_children := alter N.succ lvs (cv_children v) |}.

(** Modelled from the spec: series are "created lazily on first observation
    for a given tuple"; [WithLabelValues] of the client library's histogram
    vector, which is not part of the sources, gets or creates the child at
    [lvs]; it panics ([None]) when the number of values differs from the
    number of declared names or when a value is not valid UTF-8. *)
Definition HistogramVec_WithLabelValues (v : HistogramVec) (lvs : list string)
  : option HistogramVec :=
  if validateLabelValues lvs (length (hv_variableLabels v)) then
    match hv_children v !! lvs with
    | Some _ => Some v
    | None => Some {| hv_variableLabels := hv_variableLabels v;
                      hv_children := <[lvs := []]> (hv_children v) |}
    end
  else None.

(** Modelled from the spec: an observation "adds elapsedSeconds to the
    Histogram tuple"; [Observe(x)] of the client library on the child at
    [lvs]. *)
Definition Histogram_Observe (v : HistogramVec) (lvs : list string) (x : Z)
  : HistogramVec :=
  {| hv_variableLabels := hv_variableLabels v;
     hv_children := alter (λ samples, (samples ++ [x])%list) lvs (hv_children v) |}.

(** Modelled from the spec: "Collect must omit that series (no
    zero-initialization of unseen tuples)"; [Collect] of the client library
    sends one metric per existing child. *)
Definition CounterVec_Collect (v : CounterVec) : list (list string * N) :=
  map_to_list (cv_children v).

Definition HistogramVec_Collect (v : HistogramVec)
  : list (list string * list Z) :=
  map_to_list (hv_children v).

(** Readings of one series; an absent series reads as zero. *)
Definition counter_value (v : CounterVec) (lvs : list string) : N :=
  default 0%N (cv_children v !! lvs).

Definition histogram_samples (v : HistogramVec) (lvs : list string) : list Z :=
  default [] (hv_children v !! lvs).

End prom.

(** ** The registry and the label extractor *)

Module ServerMetrics.

Record t := {
  labels : list string;
  serverHandledCounter : prom.CounterVec;
  serverHandledHistogram : prom.HistogramVec
}.

End ServerMetrics.

(** The [LabelExtractor] interface, over contexts of type [Ctx]. *)
Class LabelExtractor (Ctx E : Type) := {
  LabelNames : E → list string;
  Labels : E → Ctx → gmap string string
}.

Inductive DefaultLabelExtractor := mkDefaultLabelExtractor.
Inductive CustomLabelExtractor := mkCustomLabelExtractor.

(** [for k, v := range entries { labels[k] = v }], the entries taken in the
    order the iteration yields them. *)
Definition rangeAssign (entries : list (string * string))
    (labels : gmap string string) : gmap string string :=
  foldl (λ acc kv, <[kv.1 := kv.2]> acc) labels entries.

Definition DefaultLabelExtractor_LabelNames (d : DefaultLabelExtractor)
  : list string := [].

Definition DefaultLabelExtractor_Labels (d : DefaultLabelExtractor)
  : gmap string string :=
  foldl (λ res l, <[l := "default"]> res) ∅ (DefaultLabelExtractor_LabelNames d).

#[export] Instance DefaultLabelExtractor_extractor {Ctx} :
  LabelExtractor Ctx DefaultLabelExtractor := {|
  LabelNames := DefaultLabelExtractor_LabelNames;
  Labels d _ := DefaultLabelExtractor_Labels d
|}.

#[export] Instance CustomLabelExtractor_extractor {Ctx} :
  LabelExtractor Ctx CustomLabelExtractor := {|
  LabelNames _ := ["userName"];
  Labels _ _ := {[ "userName" := "jordi"; "appVersion" := "v0.5" ]}
|}.

(** An extractor given by its two methods, for use in examples. *)
Record FixedLabelExtractor := {
  fixedNames : list string;
  fixedLabels : gmap string string
}.

#[export] Instance FixedLabelExtractor_extractor {Ctx} :
  LabelExtractor Ctx FixedLabelExtractor := {|
  LabelNames e := fixedNames e;
  Labels e _ := fixedLabels e
|}.

Definition baseLabels : list string :=
  ["grpc_service"; "grpc_method"; "grpc_status"].

Definition NewServerMetrics {Ctx E} `{!LabelExtractor Ctx E}
    (labelExtractor : E) : ServerMetrics.t :=
  let labels := (baseLabels ++ LabelNames labelExtractor)%list in
  {| ServerMetrics.labels := labels;
     ServerMetrics.serverHandledCounter := prom.NewCounterVec labels;
     ServerMetrics.serverHandledHistogram := prom.NewHistogramVec labels |}.

(** [Collect] hands out the children of both vectors. *)
Definition Collect (m : ServerMetrics.t)
  : list (list string * N) * list (list string * list Z) :=
  (prom.CounterVec_Collect (ServerMetrics.serverHandledCounter m),
   prom.HistogramVec_Collect (ServerMetrics.serverHandledHistogram m)).

(** ** Label resolution *)

Record UnaryServerInfo := { FullMethod : string }.

(** The loop that gives every declared name still unset the value
    ["default"]. *)
Definition fillDefaults (names : list string) (labels : gmap string string)
  : gmap string string :=
  foldl (λ acc labelName,
           match acc !! labelName with
           | Some _ => acc
           | None => <[labelName := "default"]> acc
           end) labels names.

(** [metricLabels], with the order in which the extractor's map is ranged
    over made explicit. *)
Definition metricLabelsIn (order : list (string * string))
    (m : ServerMetrics.t) (info : UnaryServerInfo) : gmap string string :=
  let '(service, method) := splitMethodName (FullMethod info) in
  let labels : gmap string string :=
    {[ "grpc_service" := service; "grpc_method" := method ]} in
  let labels := rangeAssign order labels in
  fillDefaults (ServerMetrics.labels m) labels.

Definition metricLabels {Ctx E} `{!LabelExtractor Ctx E}
    (m : ServerMetrics.t) (labelExtractor : E) (ctx : Ctx)
    (info : UnaryServerInfo) : gmap string string :=
  metricLabelsIn (map_to_list (Labels labelExtractor ctx)) m info.

(** ** The world a call runs in

    The registry is shared by all calls; it is threaded through the
    computation together with the clock and with the trace of what the
    interceptor did, in the order it did it. *)

Inductive Event (Ctx Req Resp : Type) :=
| EvHandlerCall (ctx : Ctx) (req : Req)
| EvHandlerReturn (resp : Resp) (err : option error)
| EvCounterInc (lvs : list string)
| EvHistogramObserve (lvs : list string) (elapsed : Z).

Arguments EvHandlerCall {_ _ _} _ _.
Arguments EvHandlerReturn {_ _ _} _ _.
Arguments EvCounterInc {_ _ _} _.
Arguments EvHistogramObserve {_ _ _} _ _.

(** What invoking the wrapped handler leads to: it returns a response and an
    error after some time, or it does not return (it panics).  The handler
    is opaque business logic; it has no access to the registry. *)
Inductive HandlerOutcome (Resp : Type) :=
| Returned (resp : Resp) (err : option error) (took : Z)
| NotReturned.

Arguments Returned {_} _ _ _.
Arguments NotReturned {_}.

Record World (Ctx Req Resp : Type) := {
  registry : ServerMetrics.t;
  clock : Z;
  trace : list (Event Ctx Req Resp)
}.

Arguments registry {_ _ _} _.
Arguments clock {_ _ _} _.
Arguments trace {_ _ _} _.

Module serverReporter.

(** The [metrics] field of the source points to the registry of the world. *)
Record t := {
  labels : gmap string string;
  startTime : Z
}.

End serverReporter.

Section Interceptor.

Context {Ctx Req Resp : Type}.

Abbreviation world := (World Ctx Req Resp).
Abbreviation event := (Event Ctx Req Resp).

Definition UnaryHandler : Type := Ctx → Req → HandlerOutcome Resp.

(** Computations over the world that may panic. *)
Definition M (A : Type) : Type := world → option (A * world).

Definition ret {A} (a : A) : M A := λ w, Some (a, w).

Definition bind {A B} (c : M A) (k : A → M B) : M B :=
  λ w, match c w with
       | Some (a, w') => k a w'
       | None => None
       end.

Notation "'do' x <- c ; k" := (bind c (λ x, k))
  (at level 10, x name, c at level 100, k at level 200).
Notation "'do' ' p <- c ; k" := (bind c (λ x, match x with p => k end))
  (at level 10, p pattern, c at level 100, k at level 200).

Definition getRegistry : M ServerMetrics.t := λ w, Some (registry w, w).

Definition setRegistry (m : ServerMetrics.t) : M unit :=
  λ w, Some (tt, {| registry := m; clock := clock w; trace := trace w |}).

Definition emit (e : event) : M unit :=
  λ w, Some (tt, {| registry := registry w; clock := clock w;
                    trace := (trace w ++ [e])%list |}).

Definition panic {A} : M A := λ _, None.

(** [time.Now()] and [time.Since(t)] *)
Definition timeNow : M Z := λ w, Some (clock w, w).
Definition timeSince (t : Z) : M Z := λ w, Some (clock w - t, w).

Definition sleep (d : Z) : M unit :=
  λ w, Some (tt, {| registry := registry w; clock := clock w + d;
                    trace := trace w |}).

(** [handler(ctx, req)] *)
Definition invoke (handler : UnaryHandler) (ctx : Ctx) (req : Req)
  : M (Resp * option error) :=
  do _ <- emit (EvHandlerCall ctx req);
  match handler ctx req with
  | Returned resp err took =>
      do _ <- sleep took;
      do _ <- emit (EvHandlerReturn resp err);
      ret (resp, err)
  | NotReturned => panic
  end.

(** [serverHandledCounter.WithLabelValues(lvs...).Inc()] *)
Definition counterInc (lvs : list string) : M unit :=
  do m <- getRegistry;
  match prom.CounterVec_WithLabelValues
          (ServerMetrics.serverHandledCounter m) lvs with
  | None => panic
  | Some cv =>
      do _ <- setRegistry
        {| ServerMetrics.labels := ServerMetrics.labels m;
           ServerMetrics.serverHandledCounter := prom.Counter_Inc cv lvs;
           ServerMetrics.serverHandledHistogram :=
             ServerMetrics.serverHandledHistogram m |};
      emit (EvCounterInc lvs)
  end.

(** [serverHandledHistogram.WithLabelValues(lvs...).Observe(x)] *)
Definition histogramObserve (lvs : list string) (x : Z) : M unit :=
  do m <- getRegistry;
  match prom.HistogramVec_WithLabelValues
          (ServerMetrics.serverHandledHistogram m) lvs with
  | None => panic
  | Some hv =>
      do _ <- setRegistry
        {| ServerMetrics.labels := ServerMetrics.labels m;
           ServerMetrics.serverHandledCounter :=
             ServerMetrics.serverHandledCounter m;
           ServerMetrics.serverHandledHistogram :=
             prom.Histogram_Observe hv lvs x |};
      emit (EvHistogramObserve lvs x)
  end.

(** ** The reporter *)

Definition newServerReporter (labels : gmap string string)
  : M serverReporter.t :=
  do now <- timeNow;
  ret {| serverReporter.labels := labels; serverReporter.startTime := now |}.

(** The loop of [Handled]: one value per declared name, appended in the
    order of the names; a name missing from the map reads as the empty
    string. *)
Definition orderedLabels (names : list string) (labels : gmap string string)
  : list string :=
  foldl (λ acc labelName, (acc ++ [default EmptyString (labels !! labelName)])%list)
        [] names.

Definition Handled (r : serverReporter.t) : M unit :=
  do m <- getRegistry;
  let orderedLabels :=
    orderedLabels (ServerMetrics.labels m) (serverReporter.labels r) in
  do _ <- counterInc orderedLabels;
  do elapsed <- timeSince (serverReporter.startTime r);
  histogramObserve orderedLabels elapsed.

(** ** The interceptor *)

Context {E : Type} `{!LabelExtractor Ctx E}.

Definition UnaryServerInterceptor (labelExtractor : E)
    (ctx : Ctx) (req : Req) (info : UnaryServerInfo) (handler : UnaryHandler)
  : M (Resp * option error) :=
  do m <- getRegistry;
  let metricLabels := metricLabels m labelExtractor ctx info in
  do monitor <- newServerReporter metricLabels;
  do '(resp, err) <- invoke handler ctx req;
  let '(st, _) := grpcstatus.FromError err in
  let monitor :=
    {| serverReporter.labels :=
         <["grpc_status" := codes.toString (status.Code st)]>
           (serverReporter.labels monitor);
       serverReporter.startTime := serverReporter.startTime monitor |} in
  do _ <- Handled monitor;
  ret (resp, err).

End Interceptor.

(** ** The demo service and its wiring *)

Record HelloRequest := { Name : string }.
Record HelloResponse := { Message : string }.

(** [SayHello] answers with a greeting and the nil error; the time it takes
    is left open. *)
Definition SayHello (took : Z) : @UnaryHandler unit HelloRequest HelloResponse :=
  λ ctx request,
    Returned {| Message := "Hello " +:+ Name request |} None took.

Definition customLabelExtractor : CustomLabelExtractor :=
  mkCustomLabelExtractor.

Definition grpcMetrics : ServerMetrics.t :=
  NewServerMetrics (Ctx := unit) customLabelExtractor.

Definition DemoWorld : Type := World unit HelloRequest HelloResponse.

(** The world of the demo server when it starts serving. *)
Definition startWorld (now : Z) : DemoWorld :=
  {| registry := grpcMetrics; clock := now; trace := [] |}.

(** A request and the response [SayHello] gives it. *)
Definition helloRequest : HelloRequest := {| Name := "World" |}.
Definition helloResponse : HelloResponse := {| Message := "Hello World" |}.

(** A handler that fails with a status error, for examples. *)
Definition failingHandler (c : codes.Code) (took : Z)
  : @UnaryHandler unit HelloRequest HelloResponse :=
  λ ctx request,
    Returned {| Message := EmptyString |}
      (Some (wrapError "lookup"
               (statusError {| status.code := c;
                               status.message := "failed" |})))
      took.

(** An extractor whose mapping has an entry under the status label, and the
    registry and world built with it, for examples. *)
Definition statusSettingExtractor : FixedLabelExtractor :=
  {| fixedNames := ["userName"];
     fixedLabels := {[ "grpc_status" := "teapot"; "userName" := "jordi" ]} |}.

Definition statusSettingWorld : DemoWorld :=
  {| registry := NewServerMetrics (Ctx := unit) statusSettingExtractor;
     clock := 0; trace := [] |}.

Definition sayHelloInfo : UnaryServerInfo :=
  {| FullMethod := "/greet.Greeter/SayHello" |}.

(** ** Vocabulary of the specification *)

(** The registry's implicit [Observe(labelValuesInDeclaredOrder, elapsed)]
    of the specification: the counter series of the tuple goes up by one and
    the sample joins the histogram series of the tuple, either series being
    created when it is not there yet. *)
Definition Observe (lvs : list string) (elapsed : Z) (m : ServerMetrics.t)
  : ServerMetrics.t :=
  let cv := ServerMetrics.serverHandledCounter m in
  let hv := ServerMetrics.serverHandledHistogram m in
  {| ServerMetrics.labels := ServerMetrics.labels m;
     ServerMetrics.serverHandledCounter :=
       {| prom.cv_variableLabels := prom.cv_variableLabels cv;
          prom.cv_children :=
            <[lvs := N.succ (prom.counter_value cv lvs)]>
              (prom.cv_children cv) |};
     ServerMetrics.serverHandledHistogram :=
       {| prom.hv_variableLabels := prom.hv_variableLabels hv;
          prom.hv_children :=
            <[lvs := (prom.histogram_samples hv lvs ++ [elapsed])%list]>
              (prom.hv_children hv) |} |}.

(** Both vectors of a registry are keyed by its Label Set, as
    [NewServerMetrics] sets them up. *)
Definition keyed_by_labels (m : ServerMetrics.t) : Prop :=
  prom.cv_variableLabels (ServerMetrics.serverHandledCounter m)
    = ServerMetrics.labels m
  ∧ prom.hv_variableLabels (ServerMetrics.serverHandledHistogram m)
    = ServerMetrics.labels m.

(** The status label of an outcome. *)
Definition statusLabel (err : option error) : string :=
  codes.toString (status.Code (grpcstatus.FromError err).1).

(** The label map of the reporter at the time [Handled] runs, for a given
    order of ranging over the extractor's map. *)
Definition finalLabelsIn (order : list (string * string))
    (m : ServerMetrics.t) (info : UnaryServerInfo) (err : option error)
  : gmap string string :=
  <["grpc_status" := statusLabel err]> (metricLabelsIn order m info).

(** The tuple [Handled] builds for a call: one value per declared name, in
    the order of the names. *)
Definition resolvedTuple {Ctx E} `{!LabelExtractor Ctx E}
    (labelExtractor : E) (m : ServerMetrics.t) (ctx : Ctx)
    (info : UnaryServerInfo) (err : option error) : list string :=
  orderedLabels (ServerMetrics.labels m)
    (finalLabelsIn (map_to_list (Labels labelExtractor ctx)) m info err).

(** The value the precedence "extractor entry, then value derived from the
    method identifier, then sentinel" gives a name. *)
Definition precedenceValue (extracted : gmap string string)
    (info : UnaryServerInfo) (name : string) : string :=
  match extracted !! name with
  | Some v => v
  | None =>
      if decide (name = "grpc_service")
      then (splitMethodName (FullMethod info)).1
      else if decide (name = "grpc_method")
      then (splitMethodName (FullMethod info)).2
      else "default"
  end.

(** The number of counter increments a trace records for a tuple, and the
    samples it records for it. *)
Fixpoint increments {Ctx Req Resp} (lvs : list string)
    (tr : list (Event Ctx Req Resp)) : N :=
  match tr with
  | [] => 0%N
  | EvCounterInc lvs' :: tr' =>
      if decide (lvs' = lvs) then N.succ (increments lvs tr')
      else increments lvs tr'
  | _ :: tr' => increments lvs tr'
  end.

Fixpoint observations {Ctx Req Resp} (lvs : list string)
    (tr : list (Event Ctx Req Resp)) : list Z :=
  match tr with
  | [] => []
  | EvHistogramObserve lvs' x :: tr' =>
      if decide (lvs' = lvs) then x :: observations lvs tr'
      else observations lvs tr'
  | _ :: tr' => observations lvs tr'
  end.


(** The worlds a server reaches: it starts from a fresh registry and serves
    calls through the interceptor, one after the other. *)
Inductive reachable {Ctx Req Resp E} `{!LabelExtractor Ctx E}
    (labelExtractor : E) : World Ctx Req Resp → Prop :=
| reachable_start (now : Z) :
    reachable labelExtractor
      {| registry := NewServerMetrics labelExtractor;
         clock := now; trace := [] |}
| reachable_call w ctx req info handler r w' :
    reachable labelExtractor w →
    UnaryServerInterceptor labelExtractor ctx req info handler w
      = Some (r, w') →
    reachable labelExtractor w'.

(** ** Serving a list of calls

    The server hands the calls it receives to the interceptor; here one
    after the other. *)

Record Call (Ctx Req Resp : Type) := {
  callCtx : Ctx;
  callReq : Req;
  callInfo : UnaryServerInfo;
  callHandler : Ctx → Req → HandlerOutcome Resp
}.

Arguments callCtx {_ _ _} _.
Arguments callReq {_ _ _} _.
Arguments callInfo {_ _ _} _.
Arguments callHandler {_ _ _} _.

Fixpoint serve {Ctx Req Resp E} `{!LabelExtractor Ctx E} (labelExtractor : E)
    (calls : list (Call Ctx Req Resp)) (w : World Ctx Req Resp)
  : option (World Ctx Req Resp) :=
  match calls with
  | [] => Some w
  | c :: calls' =>
      match UnaryServerInterceptor labelExtractor (callCtx c) (callReq c)
              (callInfo c) (callHandler c) w with
      | Some (_, w') => serve labelExtractor calls' w'
      | None => None
      end
  end.

(** The tuple a call resolves to under a Label Set: one value per declared
    name, the status label being that of the handler's outcome.  A call
    whose handler does not return resolves to none. *)
Definition callTuple {Ctx Req Resp E} `{!LabelExtractor Ctx E}
    (labelExtractor : E) (m : ServerMetrics.t) (c : Call Ctx Req Resp)
  : option (list string) :=
  match callHandler c (callCtx c) (callReq c) with
  | Returned _ err _ =>
      Some (orderedLabels (ServerMetrics.labels m)
              (finalLabelsIn
                 (map_to_list (Labels labelExtractor (callCtx c)))
                 m (callInfo c) err))
  | NotReturned => None
  end.

(** The number of calls of a list that resolve to a given tuple. *)
Definition callsOn {Ctx Req Resp E} `{!LabelExtractor Ctx E}
    (labelExtractor : E) (m : ServerMetrics.t) (lvs : list string)
    (calls : list (Call Ctx Req Resp)) : nat :=
  length (filter (λ c, callTuple labelExtractor m c = Some lvs) calls).

(** ** The first version of the server

    [server/server.go]: the Label Set is fixed, its third label is read off
    the request by a type switch, and the outcome of the call is not a
    label. *)

Module V1.

Record ServerMetrics := {
  serverHandledCounter : prom.CounterVec;
  serverHandledHistogram : prom.HistogramVec
}.

Definition SeverMetricLabels : list string :=
  ["grpc_service"; "grpc_method"; "param_name"].

Definition NewServerMetrics : ServerMetrics :=
  {| serverHandledCounter := prom.NewCounterVec SeverMetricLabels;
     serverHandledHistogram := prom.NewHistogramVec SeverMetricLabels |}.

Definition Collect (m : ServerMetrics)
  : list (list string * N) * list (list string * list Z) :=
  (prom.CounterVec_Collect (serverHandledCounter m),
   prom.HistogramVec_Collect (serverHandledHistogram m)).

(** A value of the empty interface as the type switch of [CustomLabel] sees
    it: a pointer to a [HelloRequest], possibly nil, or a value of another
    dynamic type. *)
Inductive request (Other : Type) :=
| helloRequestPtr (p : option HelloRequest)
| otherValue (v : Other).

Arguments helloRequestPtr {_} _.
Arguments otherValue {_} _.

(** [CustomLabel]; reading the field through a nil pointer panics
    ([None]). *)
Definition CustomLabel {Other} (v : request Other) : option string :=
  match v with
  | helloRequestPtr (Some t) => Some (Name t)
  | helloRequestPtr None => None
  | otherValue _ => Some "unknown"
  end.

(** What the interceptor does, in order; of a call to [fmt.Printf] the
    format and the argument are kept. *)
Inductive Event (Ctx Other Resp : Type) :=
| EvPrintf (format : string) (arg : request Other)
| EvHandlerCall (ctx : Ctx) (req : request Other)
| EvHandlerReturn (resp : Resp) (err : option error)
| EvCounterInc (lvs : list string)
| EvHistogramObserve (lvs : list string) (elapsed : Z).

Arguments EvPrintf {_ _ _} _ _.
Arguments EvHandlerCall {_ _ _} _ _.
Arguments EvHandlerReturn {_ _ _} _ _.
Arguments EvCounterInc {_ _ _} _.
Arguments EvHistogramObserve {_ _ _} _ _.

Record World (Ctx Other Resp : Type) := {
  registry : ServerMetrics;
  clock : Z;
  trace : list (Event Ctx Other Resp)
}.

Arguments registry {_ _ _} _.
Arguments clock {_ _ _} _.
Arguments trace {_ _ _} _.

(** The [metrics] field of the source points to the registry of the world. *)
Record serverReporter := {
  serviceName : string;
  methodName : string;
  customLabel : string;
  startTime : Z
}.

Definition newline : string := String (ascii_of_nat 10) EmptyString.

Section Interceptor.

Context {Ctx Other Resp : Type}.

Abbreviation world := (World Ctx Other Resp).

Definition UnaryHandler : Type := Ctx → request Other → HandlerOutcome Resp.

Definition emit (e : Event Ctx Other Resp) (w : world) : world :=
  {| registry := registry w; clock := clock w;
     trace := (trace w ++ [e])%list |}.

Definition newServerReporter (service method customLabel : string) (w : world)
  : serverReporter :=
  {| serviceName := service; methodName := method;
     customLabel := customLabel; startTime := clock w |}.

Definition Handled (r : serverReporter) (w : world) : option world :=
  let lvs := [serviceName r; methodName r; customLabel r] in
  cv ← prom.CounterVec_WithLabelValues (serverHandledCounter (registry w)) lvs;
  let w :=
    emit (EvCounterInc lvs)
      {| registry :=
           {| serverHandledCounter := prom.Counter_Inc cv lvs;
              serverHandledHistogram :=
                serverHandledHistogram (registry w) |};
         clock := clock w; trace := trace w |} in
  hv ← prom.HistogramVec_WithLabelValues
         (serverHandledHistogram (registry w)) lvs;
  let elapsed := clock w - startTime r in
  Some (emit (EvHistogramObserve lvs elapsed)
          {| registry :=
               {| serverHandledCounter := serverHandledCounter (registry w);
                  serverHandledHistogram :=
                    prom.Histogram_Observe hv lvs elapsed |};
             clock := clock w; trace := trace w |}).

Definition UnaryServerInterceptor (ctx : Ctx) (req : request Other)
    (info : UnaryServerInfo) (handler : UnaryHandler) (w : world)
  : option ((Resp * option error) * world) :=
  let '(service, method) := splitMethodName (FullMethod info) in
  let w := emit (EvPrintf ("Type: %T" +:+ newline) req) w in
  let w := emit (EvPrintf ("Value: %v" +:+ newline) req) w in
  label ← CustomLabel req;
  let monitor := newServerReporter service method label w in
  let w := emit (EvHandlerCall ctx req) w in
  match handler ctx req with
  | Returned resp err took =>
      let w :=
        emit (EvHandlerReturn resp err)
          {| registry := registry w; clock := clock w + took;
             trace := trace w |} in
      w ← Handled monitor w;
      Some ((resp, err), w)
  | NotReturned => None
  end.

(** Serving a list of calls, one after the other. *)
Fixpoint serve
    (calls : list (Ctx * request Other * UnaryServerInfo * UnaryHandler))
    (w : world) : option world :=
  match calls with
  | [] => Some w
  | (ctx, req, info, handler) :: calls' =>
      match UnaryServerInterceptor ctx req info handler w with
      | Some (_, w') => serve calls' w'
      | None => None
      end
  end.

End Interceptor.

(** [SayHello] behind the empty interface: the generated stub hands the
    method the request it decoded. *)
Definition SayHello {Other} (took : Z)
  : @UnaryHandler unit Other HelloResponse :=
  λ ctx req,
    match req with
    | helloRequestPtr (Some request) =>
        Returned {| Message := "Hello " +:+ Name request |} None took
    | _ => NotReturned
    end.

Definition startWorld (now : Z) : World unit Empty_set HelloResponse :=
  {| registry := NewServerMetrics; clock := now; trace := [] |}.

(** Both vectors take three label values, as [NewServerMetrics] sets them
    up. *)
Definition keyed (m : ServerMetrics) : Prop :=
  length (prom.cv_variableLabels (serverHandledCounter m)) = 3%nat
  ∧ length (prom.hv_variableLabels (serverHandledHistogram m)) = 3%nat.

(** The registry after one more observation of [elapsed] on [lvs]. *)
Definition Observe (lvs : list string) (elapsed : Z) (m : ServerMetrics)
  : ServerMetrics :=
  let cv := serverHandledCounter m in
  let hv := serverHandledHistogram m in
  {| serverHandledCounter :=
       {| prom.cv_variableLabels := prom.cv_variableLabels cv;
          prom.cv_children :=
            <[lvs := N.succ (prom.counter_value cv lvs)]>
              (prom.cv_children cv) |};
     serverHandledHistogram :=
       {| prom.hv_variableLabels := prom.hv_variableLabels hv;
          prom.hv_children :=
            <[lvs := (prom.histogram_samples hv lvs ++ [elapsed])%list]>
              (prom.hv_children hv) |} |}.

(** The tuple a call resolves to: service, method and the label read off
    the request; none when reading the label panics. *)
Definition tupleOf {Other} (info : UnaryServerInfo) (req : request Other)
  : option (list string) :=
  label ← CustomLabel req;
  Some [(splitMethodName (FullMethod info)).1;
        (splitMethodName (FullMethod info)).2; label].

(** The number of calls of a list that resolve to a given tuple. *)
Definition callsOn {Ctx Other Resp} (lvs : list string)
    (calls : list (Ctx * request Other * UnaryServerInfo
                   * @UnaryHandler Ctx Other Resp)) : nat :=
  length (filter (λ c, tupleOf c.1.2 c.1.1.2 = Some lvs) calls).

End V1.

(** ** Calls of the demo, for examples *)

Definition helloCall (took : Z) : Call unit HelloRequest HelloResponse :=
  {| callCtx := tt; callReq := helloRequest; callInfo := sayHelloInfo;
     callHandler := SayHello took |}.

Definition failingCall : Call unit HelloRequest HelloResponse :=
  {| callCtx := tt; callReq := helloRequest; callInfo := sayHelloInfo;
     callHandler := failingHandler codes.NotFound 7 |}.

Definition demoCalls : list (Call unit HelloRequest HelloResponse) :=
  [helloCall 10; failingCall; helloCall 12].

(** An extractor that declares a base name again. *)
Definition duplicatingExtractor : FixedLabelExtractor :=
  {| fixedNames := ["userName"; "grpc_method"];
     fixedLabels := {[ "userName" := "jordi" ]} |}.

Definition duplicatingWorld : DemoWorld :=
  {| registry := NewServerMetrics (Ctx := unit) duplicatingExtractor;
     clock := 0; trace := [] |}.

Definition v1HelloCall (name : string) (took : Z)
  : unit * V1.request Empty_set * UnaryServerInfo
    * @V1.UnaryHandler unit Empty_set HelloResponse :=
  (tt, V1.helloRequestPtr (Some {| Name := name |}), sayHelloInfo,
   V1.SayHello took).

(** The two calls the client of the demo issues in one round, under the
    method identifier of the examples. *)
Definition v1ClientRound
  : list (unit * V1.request Empty_set * UnaryServerInfo
          * @V1.UnaryHandler unit Empty_set HelloResponse) :=
  [v1HelloCall "Test" 3; v1HelloCall "Test111" 4].

(** A world of the demo server in which one tuple has been observed
    already. *)
Definition busyWorld : DemoWorld :=
  {| registry :=
       Observe ["greet.Greeter"; "SayHello"; "OK"; "jordi"] 10 grpcMetrics;
     clock := 110; trace := [] |}.



Definition invalidNameRequest : HelloRequest :=
  {| Name := String "W" (String (ascii_of_nat 255) EmptyString) |}.

(** * Properties *)

(** ** Lemmas on the string functions *)

Section StringFacts.

Lemma TrimPrefix_slash s : strings.TrimPrefix s "/" = strip_leading_slash s.
Proof.
  unfold strings.TrimPrefix. destruct s as [|c s]; [reflexivity|].
  destruct c as [[] [] [] [] [] [] [] []]; destruct s; reflexivity.
Qed.

Lemma HasPrefix_slash c s :
  strings.HasPrefix (String c s) "/" = Ascii.eqb c "/".
Proof. simpl. destruct (Ascii.eqb c "/"), s; reflexivity. Qed.

Lemma Index_no_slash s : has_slash s = false → strings.Index s "/" = -1.
Proof.
  induction s as [|c s IH]; [reflexivity|].
  cbn [has_slash]. intros H.
  cbn [strings.Index]. rewrite HasPrefix_slash.
  destruct (Ascii.eqb c "/"); [discriminate|].
  rewrite (IH H). reflexivity.
Qed.

Lemma Index_nonneg_or_minus_one s sep :
  strings.Index s sep = -1 ∨ 0 ≤ strings.Index s sep.
Proof.
  induction s as [|c s IH]; cbn [strings.Index].
  - destruct (strings.HasPrefix _ _); [right|left]; done.
  - destruct (strings.HasPrefix _ _); [right; done|].
    destruct (Z.ltb_spec (strings.Index s sep) 0); [left; done|right; lia].
Qed.

Lemma Index_first_slash a b :
  has_slash a = false →
  strings.Index (a +:+ "/" +:+ b) "/" = Z.of_nat (String.length a).
Proof.
  induction a as [|c a IH]; [intros _; simpl; by destruct b|].
  cbn [has_slash]. intros H.
  change (String c a +:+ "/" +:+ b) with (String c (a +:+ "/" +:+ b)).
  cbn [strings.Index]. rewrite HasPrefix_slash.
  destruct (Ascii.eqb c "/"); [discriminate|].
  rewrite (IH H). cbn [String.length].
  destruct (Z.ltb_spec (Z.of_nat (String.length a)) 0); lia.
Qed.

Lemma sliceTo_app a b : strings.sliceTo (String.length a) (a +:+ b) = a.
Proof. induction a as [|c a IH]; [by destruct b|]. simpl. by rewrite IH. Qed.

Lemma sliceFrom_app a b : strings.sliceFrom (String.length a) (a +:+ b) = b.
Proof. induction a as [|c a IH]; [by destruct b|]. simpl. by rewrite IH. Qed.

Lemma sliceFrom_past_separator a c b :
  strings.sliceFrom (S (String.length a)) (a +:+ String c b) = b.
Proof.
  change (S (String.length a)) with (String.length (String c a)).
  induction a as [|x a IH]; [by destruct b|]. simpl in *. by rewrite IH.
Qed.

(** The two slice expressions of [splitMethodName] are always in range:
    a non-negative index leaves room for the separator. *)
Lemma Index_in_range s sep :
  0 ≤ strings.Index s sep →
  strings.Index s sep + Z.of_nat (String.length sep)
    ≤ Z.of_nat (String.length s).
Proof.
  assert (Hpre : ∀ t p, strings.HasPrefix t p = true →
                        (String.length p ≤ String.length t)%nat).
  { intros t p. revert t. induction p as [|x p IHp]; intros [|y t] Hp;
      simpl in *; try lia; try discriminate.
    destruct (Ascii.eqb y x); [|discriminate]. specialize (IHp _ Hp). lia. }
  induction s as [|c s IH]; cbn [strings.Index].
  - destruct (strings.HasPrefix EmptyString sep) eqn:Hp; [|lia].
    intros _. apply Hpre in Hp. simpl in *. lia.
  - destruct (strings.HasPrefix (String c s) sep) eqn:Hp.
    + intros _. apply Hpre in Hp. lia.
    + destruct (Z.ltb_spec (strings.Index s sep) 0); [lia|].
      intros _. specialize (IH ltac:(lia)). cbn [String.length]. lia.
Qed.

Lemma has_slash_strip s :
  has_slash s = false → has_slash (strip_leading_slash s) = false.
Proof.
  destruct s as [|c s]; [done|].
  destruct c as [[] [] [] [] [] [] [] []]; simpl; try done.
Qed.

End StringFacts.

(** C4. The method identifier is split by stripping one leading ['/'] and
    cutting at the first remaining ['/']: what precedes it is the service,
    what follows it the method; when no ['/'] remains both are ["unknown"].
    In particular ["/greet.Greeter/SayHello"] gives
    [("greet.Greeter", "SayHello")] and an identifier without any ['/'] gives
    [("unknown", "unknown")]. *)
Theorem splitMethodName_spec (fullMethodName : string) :
  (∀ service method,
      strip_leading_slash fullMethodName = service +:+ "/" +:+ method →
      has_slash service = false →
      splitMethodName fullMethodName = (service, method))
  ∧ (has_slash (strip_leading_slash fullMethodName) = false →
      splitMethodName fullMethodName = ("unknown", "unknown"))
  ∧ splitMethodName "/greet.Greeter/SayHello" = ("greet.Greeter", "SayHello")
  ∧ (has_slash fullMethodName = false →
      splitMethodName fullMethodName = ("unknown", "unknown")).
Proof.
  assert (Hnone : has_slash (strip_leading_slash fullMethodName) = false →
                  splitMethodName fullMethodName = ("unknown", "unknown")).
  { intros H. unfold splitMethodName. rewrite TrimPrefix_slash.
    by rewrite (Index_no_slash _ H). }
  split; [|split; [exact Hnone|split; [reflexivity|]]].
  - intros service method Heq Hs. unfold splitMethodName.
    rewrite TrimPrefix_slash, Heq, (Index_first_slash _ _ Hs).
    destruct (Z.leb_spec 0 (Z.of_nat (String.length service))); [|lia].
    rewrite Nat2Z.id, sliceTo_app.
    replace (Z.to_nat (Z.of_nat (String.length service) + 1))
      with (S (String.length service)) by lia.
    change (service +:+ "/" +:+ method) with (service +:+ String "/" method).
    by rewrite sliceFrom_past_separator.
  - intros H. by apply Hnone, has_slash_strip.
Qed.

Lemma splitMethodName_spec_witness :
  splitMethodName "/pkg.Svc/Do/It" = ("pkg.Svc", "Do/It")
  ∧ splitMethodName "/nomethod" = ("unknown", "unknown")
  ∧ splitMethodName "plain" = ("unknown", "unknown").
Proof.
  split; [|split].
  - apply (proj1 (splitMethodName_spec "/pkg.Svc/Do/It") "pkg.Svc" "Do/It");
      reflexivity.
  - apply (proj1 (proj2 (splitMethodName_spec "/nomethod"))); reflexivity.
  - apply (proj2 (proj2 (proj2 (splitMethodName_spec "plain")))); reflexivity.
Defined.

(** ** Lemmas on label resolution *)

Section LabelFacts.

Implicit Types (labels extracted : gmap string string).
Implicit Types (order : list (string * string)) (names : list string).

(** The default extractor declares no names and extracts no labels. *)
Lemma DefaultLabelExtractor_empty (d : DefaultLabelExtractor) :
  DefaultLabelExtractor_LabelNames d = []
  ∧ DefaultLabelExtractor_Labels d = ∅.
Proof. by split. Qed.

Lemma rangeAssign_lookup order labels k :
  NoDup order.*1 →
  rangeAssign order labels !! k
  = match (list_to_map order : gmap string string) !! k with
    | Some v => Some v
    | None => labels !! k
    end.
Proof.
  unfold rangeAssign. revert labels.
  induction order as [|[k0 v0] order IH]; intros labels Hnd; [done|].
  apply NoDup_cons in Hnd as [Hk0 Hnd]. cbn [foldl fmap list_fmap fst snd].
  rewrite (IH _ Hnd). cbn [list_to_map foldr uncurry].
  destruct (decide (k0 = k)) as [->|Hne].
  - rewrite lookup_insert_eq.
    rewrite (not_elem_of_list_to_map_1 (M := gmap string) order k Hk0).
    by rewrite lookup_insert_eq.
  - rewrite !lookup_insert_ne by done. done.
Qed.

(** Ranging over a map in any order assigns the same entries. *)
Lemma rangeAssign_map_order order extracted labels k :
  order ≡ₚ map_to_list extracted →
  rangeAssign order labels !! k
  = match extracted !! k with
    | Some v => Some v
    | None => labels !! k
    end.
Proof.
  intros Hperm.
  assert (Hnd : NoDup order.*1).
  { rewrite Hperm. apply NoDup_fst_map_to_list. }
  rewrite (rangeAssign_lookup _ _ _ Hnd).
  rewrite (list_to_map_proper (M := gmap string) _ _ Hnd Hperm).
  by rewrite list_to_map_to_list.
Qed.

Lemma fillDefaults_lookup names labels k :
  fillDefaults names labels !! k
  = match labels !! k with
    | Some v => Some v
    | None => if decide (k ∈ names) then Some "default" else None
    end.
Proof.
  unfold fillDefaults. revert labels.
  induction names as [|n names IH]; intros labels; cbn [foldl].
  - destruct (labels !! k); [done|].
    destruct (decide (k ∈ [])) as [Hin|_]; [|done]. by apply elem_of_nil in Hin.
  - rewrite IH.
    destruct (decide (k ∈ n :: names)) as [Hin|Hin]; rewrite elem_of_cons in Hin;
      destruct (decide (k ∈ names)) as [Hin'|Hin'];
      destruct (labels !! n) eqn:Hn;
      destruct (decide (n = k)) as [->|Hne];
      rewrite ?lookup_insert_eq, ?Hn, ?lookup_insert_ne by done;
      try destruct (labels !! k); try done; exfalso; intuition congruence.
Qed.

Lemma orderedLabels_fmap names labels :
  orderedLabels names labels = (λ n, default EmptyString (labels !! n)) <$> names.
Proof.
  unfold orderedLabels.
  enough (Hgen : ∀ acc,
    foldl (λ acc labelName, (acc ++ [default EmptyString (labels !! labelName)])%list)
      acc names = (acc ++ ((λ n, default EmptyString (labels !! n)) <$> names))%list)
    by apply (Hgen []).
  induction names as [|n names IH]; intros acc; cbn [foldl fmap list_fmap].
  - by rewrite app_nil_r.
  - rewrite IH. by rewrite <- app_assoc.
Qed.

Lemma orderedLabels_length names labels :
  length (orderedLabels names labels) = length names.
Proof. rewrite orderedLabels_fmap. apply length_fmap. Qed.

Lemma orderedLabels_lookup names labels i name :
  names !! i = Some name →
  orderedLabels names labels !! i = Some (default EmptyString (labels !! name)).
Proof.
  intros Hi. rewrite orderedLabels_fmap, list_lookup_fmap, Hi. done.
Qed.

(** The resolved map, entry by entry. *)
Lemma metricLabelsIn_lookup order extracted m info name :
  order ≡ₚ map_to_list extracted →
  metricLabelsIn order m info !! name
  = match extracted !! name with
    | Some v => Some v
    | None =>
        if decide (name = "grpc_service")
        then Some (splitMethodName (FullMethod info)).1
        else if decide (name = "grpc_method")
        then Some (splitMethodName (FullMethod info)).2
        else if decide (name ∈ ServerMetrics.labels m)
        then Some "default" else None
    end.
Proof.
  intros Hperm. unfold metricLabelsIn.
  destruct (splitMethodName (FullMethod info)) as [service method].
  rewrite fillDefaults_lookup, (rangeAssign_map_order _ _ _ _ Hperm).
  destruct (extracted !! name); [done|]. cbn [fst snd].
  destruct (decide (name = "grpc_service")) as [->|Hs].
  { by rewrite lookup_insert_eq. }
  rewrite lookup_insert_ne by done.
  destruct (decide (name = "grpc_method")) as [->|Hm].
  { by rewrite lookup_singleton_eq. }
  by rewrite lookup_singleton_ne.
Qed.

Lemma metricLabelsIn_order order extracted m info :
  order ≡ₚ map_to_list extracted →
  metricLabelsIn order m info
  = metricLabelsIn (map_to_list extracted) m info.
Proof.
  intros Hperm. apply map_eq. intros k.
  by rewrite (metricLabelsIn_lookup _ _ _ _ _ Hperm),
             (metricLabelsIn_lookup _ extracted).
Qed.

End LabelFacts.

(** ** Lemmas on the vectors and on one run of the interceptor *)

Section RunFacts.

Context {Ctx Req Resp E : Type} `{!LabelExtractor Ctx E}.

Implicit Types (w : World Ctx Req Resp) (m : ServerMetrics.t).
Implicit Types (handler : @UnaryHandler Ctx Req Resp).

Lemma validateLabelValues_true lvs n :
  length lvs = n → forallb utf8.ValidString lvs = true →
  prom.validateLabelValues lvs n = true.
Proof.
  intros Hlen Hv. unfold prom.validateLabelValues.
  by rewrite decide_True.
Qed.

Lemma validateLabelValues_false lvs n :
  forallb utf8.ValidString lvs = false →
  prom.validateLabelValues lvs n = false.
Proof.
  intros Hv. unfold prom.validateLabelValues. by case_decide.
Qed.

Lemma counter_commit (v : prom.CounterVec) lvs :
  length lvs = length (prom.cv_variableLabels v) →
  forallb utf8.ValidString lvs = true →
  ∃ cv, prom.CounterVec_WithLabelValues v lvs = Some cv
        ∧ prom.Counter_Inc cv lvs
          = {| prom.cv_variableLabels := prom.cv_variableLabels v;
               prom.cv_children :=
                 <[lvs := N.succ (prom.counter_value v lvs)]>
                   (prom.cv_children v) |}.
Proof.
  intros Hlen Hv. unfold prom.CounterVec_WithLabelValues, prom.counter_value.
  rewrite validateLabelValues_true by done.
  destruct (prom.cv_children v !! lvs) as [n|] eqn:Hl; eexists; (split; [done|]);
    unfold prom.Counter_Inc; cbn; f_equal; apply map_eq; intros k;
    destruct (decide (lvs = k)) as [<-|Hne];
    rewrite ?lookup_alter_eq, ?lookup_alter_ne, ?lookup_insert_eq,
            ?lookup_insert_ne, ?Hl by done; done.
Qed.

Lemma histogram_commit (v : prom.HistogramVec) lvs x :
  length lvs = length (prom.hv_variableLabels v) →
  forallb utf8.ValidString lvs = true →
  ∃ hv, prom.HistogramVec_WithLabelValues v lvs = Some hv
        ∧ prom.Histogram_Observe hv lvs x
          = {| prom.hv_variableLabels := prom.hv_variableLabels v;
               prom.hv_children :=
                 <[lvs := (prom.histogram_samples v lvs ++ [x])%list]>
                   (prom.hv_children v) |}.
Proof.
  intros Hlen Hv.
  unfold prom.HistogramVec_WithLabelValues, prom.histogram_samples.
  rewrite validateLabelValues_true by done.
  destruct (prom.hv_children v !! lvs) as [n|] eqn:Hl; eexists; (split; [done|]);
    unfold prom.Histogram_Observe; cbn; f_equal; apply map_eq; intros k;
    destruct (decide (lvs = k)) as [<-|Hne];
    rewrite ?lookup_alter_eq, ?lookup_alter_ne, ?lookup_insert_eq,
            ?lookup_insert_ne, ?Hl by done; done.
Qed.

Lemma keyed_by_labels_new (labelExtractor : E) :
  keyed_by_labels (NewServerMetrics labelExtractor).
Proof. by split. Qed.

Lemma keyed_by_labels_Observe lvs x m :
  keyed_by_labels m → keyed_by_labels (Observe lvs x m).
Proof. by intros [??]. Qed.

(** On a registry keyed by its Label Set [Handled] supplies as many values
    as there are declared names: it commits when the values are valid
    UTF-8. *)
Lemma Handled_run (r : serverReporter.t) w :
  keyed_by_labels (registry w) →
  let lvs := orderedLabels (ServerMetrics.labels (registry w))
                           (serverReporter.labels r) in
  let elapsed := clock w - serverReporter.startTime r in
  forallb utf8.ValidString lvs = true →
  Handled r w
  = Some (tt, {| registry := Observe lvs elapsed (registry w);
                 clock := clock w;
                 trace := (trace w ++ [EvCounterInc lvs;
                                       EvHistogramObserve lvs elapsed])%list |}).
Proof.
  intros [Hc Hh] lvs elapsed Hv.
  assert (Hlen : length lvs = length (ServerMetrics.labels (registry w)))
    by apply orderedLabels_length.
  destruct (counter_commit
              (ServerMetrics.serverHandledCounter (registry w)) lvs)
    as (cv & Hcv & Hinc); [by rewrite Hc|done|].
  destruct (histogram_commit
              (ServerMetrics.serverHandledHistogram (registry w)) lvs elapsed)
    as (hv & Hhv & Hobs); [by rewrite Hh|done|].
  unfold Handled, counterInc, histogramObserve, bind, getRegistry,
    setRegistry, emit, timeSince.
  fold lvs. rewrite Hcv. cbn. fold elapsed. rewrite Hhv. cbn.
  rewrite Hinc, Hobs, <- app_assoc. reflexivity.
Qed.

(** It panics, at the counter already, when one of them is not. *)
Lemma Handled_rejected (r : serverReporter.t) w :
  forallb utf8.ValidString
    (orderedLabels (ServerMetrics.labels (registry w))
                   (serverReporter.labels r)) = false →
  Handled r w = None.
Proof.
  intros Hv.
  unfold Handled, counterInc, bind, getRegistry,
    prom.CounterVec_WithLabelValues.
  by rewrite validateLabelValues_false.
Qed.

Lemma interceptor_run (labelExtractor : E) ctx req info handler
    resp err took w :
  keyed_by_labels (registry w) →
  handler ctx req = Returned resp err took →
  let lvs :=
    orderedLabels (ServerMetrics.labels (registry w))
      (finalLabelsIn (map_to_list (Labels labelExtractor ctx))
                     (registry w) info err) in
  forallb utf8.ValidString lvs = true →
  UnaryServerInterceptor labelExtractor ctx req info handler w
  = Some ((resp, err),
          {| registry := Observe lvs took (registry w);
             clock := clock w + took;
             trace := (trace w ++ [EvHandlerCall ctx req;
                                   EvHandlerReturn resp err;
                                   EvCounterInc lvs;
                                   EvHistogramObserve lvs took])%list |}).
Proof.
  intros Hk Hret lvs Hv.
  unfold UnaryServerInterceptor, newServerReporter, invoke. rewrite Hret.
  unfold bind, getRegistry, timeNow, ret, emit, sleep. cbv beta iota.
  destruct (grpcstatus.FromError err) as [st ok] eqn:Hst. cbv beta iota.
  assert (Hlabels :
    <["grpc_status" := codes.toString (status.Code st)]>
      (metricLabels (registry w) labelExtractor ctx info)
    = finalLabelsIn (map_to_list (Labels labelExtractor ctx))
                    (registry w) info err).
  { unfold finalLabelsIn, statusLabel, metricLabels. by rewrite Hst. }
  cbn [serverReporter.labels serverReporter.startTime]. rewrite Hlabels.
  rewrite Handled_run by done.
  cbn [registry clock trace serverReporter.labels serverReporter.startTime].
  fold lvs. rewrite <- !app_assoc. cbn [app].
  by replace (clock w + took - clock w) with took by lia.
Qed.

(** When a value of the tuple is not valid UTF-8 the interceptor panics in
    [Handled], although the handler has returned. *)
Lemma interceptor_rejected (labelExtractor : E) ctx req info handler
    resp err took w :
  handler ctx req = Returned resp err took →
  forallb utf8.ValidString
    (orderedLabels (ServerMetrics.labels (registry w))
       (finalLabelsIn (map_to_list (Labels labelExtractor ctx))
                      (registry w) info err)) = false →
  UnaryServerInterceptor labelExtractor ctx req info handler w = None.
Proof.
  intros Hret Hv.
  unfold UnaryServerInterceptor, newServerReporter, invoke. rewrite Hret.
  unfold bind, getRegistry, timeNow, ret, emit, sleep. cbv beta iota.
  destruct (grpcstatus.FromError err) as [st ok] eqn:Hst. cbv beta iota.
  assert (Hlabels :
    <["grpc_status" := codes.toString (status.Code st)]>
      (metricLabels (registry w) labelExtractor ctx info)
    = finalLabelsIn (map_to_list (Labels labelExtractor ctx))
                    (registry w) info err).
  { unfold finalLabelsIn, statusLabel, metricLabels. by rewrite Hst. }
  cbn [serverReporter.labels serverReporter.startTime]. rewrite Hlabels.
  by rewrite Handled_rejected.
Qed.

(** A panic of the handler goes through the interceptor. *)
Lemma interceptor_not_returned (labelExtractor : E) ctx req info handler w :
  handler ctx req = NotReturned →
  UnaryServerInterceptor labelExtractor ctx req info handler w = None.
Proof.
  intros Hret.
  unfold UnaryServerInterceptor, newServerReporter, invoke. rewrite Hret.
  reflexivity.
Qed.

End RunFacts.

(** ** Lemmas on traces *)

Section TraceFacts.

Context {Ctx Req Resp : Type}.

Implicit Types (tr : list (Event Ctx Req Resp)).


Lemma increments_app lvs tr1 tr2 :
  increments lvs (tr1 ++ tr2)
  = (increments lvs tr1 + increments lvs tr2)%N.
Proof.
  induction tr1 as [|[] tr1 IH]; cbn [increments app]; [lia|..];
    try case_decide; lia.
Qed.

Lemma observations_app lvs tr1 tr2 :
  observations lvs (tr1 ++ tr2)
  = (observations lvs tr1 ++ observations lvs tr2)%list.
Proof.
  induction tr1 as [|[] tr1 IH]; cbn [observations app]; [done|..];
    try case_decide; by rewrite ?IH.
Qed.

End TraceFacts.

(** ** The claims about one call *)

Section CallProperties.

Context {Ctx Req Resp E : Type} `{!LabelExtractor Ctx E}.

Implicit Types (w : World Ctx Req Resp) (m : ServerMetrics.t).
Implicit Types (handler : @UnaryHandler Ctx Req Resp).
Implicit Types (labelExtractor : E).



(** C3. The status label of the committed tuple is the code the handler's
    outcome classifies to, whatever the label map held for it before the
    handler ran: ["OK"] for the nil error, the code of the status an error
    carries, ["Unknown"] for an error carrying none.  A tuple is committed
    when its values are valid UTF-8. *)
Theorem status_label_is_outcome_code
    labelExtractor ctx req info handler resp err took w :
  keyed_by_labels (registry w) →
  handler ctx req = Returned resp err took →
  forallb utf8.ValidString
    (resolvedTuple labelExtractor (registry w) ctx info err) = true →
  ∃ lvs elapsed w',
    UnaryServerInterceptor labelExtractor ctx req info handler w
      = Some ((resp, err), w')
    ∧ trace w' = (trace w ++ [EvHandlerCall ctx req;
                              EvHandlerReturn resp err;
                              EvCounterInc lvs;
                              EvHistogramObserve lvs elapsed])%list
    ∧ (∀ i, ServerMetrics.labels (registry w) !! i = Some "grpc_status" →
            lvs !! i = Some (statusLabel err))
    ∧ (err = None → statusLabel err = "OK")
    ∧ (∀ e s, err = Some e → grpcstatus.unwrapStatus e = Some s →
              statusLabel err = codes.toString (status.code s))
    ∧ (∀ e, err = Some e → grpcstatus.unwrapStatus e = None →
            statusLabel err = "Unknown").
Proof.
  intros Hk Hret Hv.
  eexists _, took, _. split; [by apply interceptor_run|].
  cbn [trace]. split; [done|]. split; [|split; [|split]].
  - intros i Hi. rewrite (orderedLabels_lookup _ _ _ _ Hi).
    unfold finalLabelsIn. by rewrite lookup_insert_eq.
  - by intros ->.
  - intros e s -> Hs. unfold statusLabel, grpcstatus.FromError. by rewrite Hs.
  - intros e -> Hs. unfold statusLabel, grpcstatus.FromError. by rewrite Hs.
Qed.

End CallProperties.

(** ** The claims about labels *)

Section LabelProperties.

Context {Ctx Req Resp E : Type} `{!LabelExtractor Ctx E}.

Implicit Types (w : World Ctx Req Resp) (m : ServerMetrics.t).
Implicit Types (handler : @UnaryHandler Ctx Req Resp).
Implicit Types (labelExtractor : E).

(** The value [Handled] reads for a declared name. *)
Lemma finalLabelsIn_declared order extracted m info err name :
  order ≡ₚ map_to_list extracted →
  name ∈ ServerMetrics.labels m →
  finalLabelsIn order m info err !! name
  = Some (if decide (name = "grpc_status") then statusLabel err
          else precedenceValue extracted info name).
Proof.
  intros Hperm Hin. unfold finalLabelsIn, precedenceValue.
  destruct (decide (name = "grpc_status")) as [->|Hne].
  { by rewrite lookup_insert_eq. }
  rewrite lookup_insert_ne by done.
  rewrite (metricLabelsIn_lookup _ _ _ _ _ Hperm).
  destruct (extracted !! name); [done|].
  repeat case_decide; done.
Qed.

(** C5. Before the handler runs, the resolved label map has a value for
    every declared name; a declared name that the extractor's mapping omits
    and that is neither of the two derived names has the value ["default"];
    and the map the observation is built from has a value for every declared
    name as well. *)
Theorem declared_names_are_resolved labelExtractor ctx info m name :
  name ∈ ServerMetrics.labels m →
  is_Some (metricLabels m labelExtractor ctx info !! name)
  ∧ (Labels labelExtractor ctx !! name = None →
     name ≠ "grpc_service" → name ≠ "grpc_method" →
     metricLabels m labelExtractor ctx info !! name = Some "default")
  ∧ (∀ err,
       is_Some (finalLabelsIn (map_to_list (Labels labelExtractor ctx))
                              m info err !! name)).
Proof.
  intros Hin. unfold metricLabels.
  rewrite (metricLabelsIn_lookup _ (Labels labelExtractor ctx)) by done.
  split; [|split].
  - destruct (Labels labelExtractor ctx !! name); [by eexists|].
    repeat case_decide; try done; by eexists.
  - intros -> Hs Hm. by rewrite !decide_False, decide_True by done.
  - intros err.
    rewrite (finalLabelsIn_declared _ (Labels labelExtractor ctx)) by done.
    by eexists.
Qed.

(** C6. The Label Set of a new registry is the three base names followed
    by the extractor's declared names, in that order, and both vectors are
    keyed by it; the registry depends on the extractor through its declared
    names only, so constructing again with an extractor declaring the same
    names, the same extractor in particular, gives the same Label Set in the
    same order. *)
Theorem NewServerMetrics_label_set labelExtractor :
  ServerMetrics.labels (NewServerMetrics labelExtractor)
  = (["grpc_service"; "grpc_method"; "grpc_status"]
     ++ LabelNames labelExtractor)%list
  ∧ keyed_by_labels (NewServerMetrics labelExtractor)
  ∧ (∀ labelExtractor',
       LabelNames labelExtractor' = LabelNames labelExtractor →
       NewServerMetrics labelExtractor' = NewServerMetrics labelExtractor).
Proof.
  split; [done|]. split; [apply keyed_by_labels_new|].
  intros labelExtractor' Heq. unfold NewServerMetrics. cbn. by rewrite Heq.
Qed.

(** C7. The tuple handed to the Counter and to the Histogram has one value
    per declared name, in the order of the declared names: its [i]-th value
    is the resolved value of the [i]-th name.  It is the same whatever the
    order in which the extractor's map was ranged over.  A tuple is
    committed when its values are valid UTF-8. *)
Theorem committed_tuple_follows_declared_order
    labelExtractor ctx req info handler resp err took w :
  keyed_by_labels (registry w) →
  handler ctx req = Returned resp err took →
  forallb utf8.ValidString
    (resolvedTuple labelExtractor (registry w) ctx info err) = true →
  ∃ lvs elapsed w',
    UnaryServerInterceptor labelExtractor ctx req info handler w
      = Some ((resp, err), w')
    ∧ trace w' = (trace w ++ [EvHandlerCall ctx req;
                              EvHandlerReturn resp err;
                              EvCounterInc lvs;
                              EvHistogramObserve lvs elapsed])%list
    ∧ length lvs = length (ServerMetrics.labels (registry w))
    ∧ (∀ i name,
         ServerMetrics.labels (registry w) !! i = Some name →
         ∃ v, finalLabelsIn (map_to_list (Labels labelExtractor ctx))
                            (registry w) info err !! name = Some v
              ∧ lvs !! i = Some v)
    ∧ (∀ order,
         order ≡ₚ map_to_list (Labels labelExtractor ctx) →
         orderedLabels (ServerMetrics.labels (registry w))
                       (finalLabelsIn order (registry w) info err) = lvs).
Proof.
  intros Hk Hret Hv.
  eexists _, took, _. split; [by apply interceptor_run|].
  cbn [trace]. split; [done|]. split; [apply orderedLabels_length|]. split.
  - intros i name Hi.
    assert (Hin : name ∈ ServerMetrics.labels (registry w))
      by (apply list_elem_of_lookup; eauto).
    rewrite (orderedLabels_lookup _ _ _ _ Hi).
    rewrite (finalLabelsIn_declared _ (Labels labelExtractor ctx)) by done.
    by eexists.
  - intros order Hperm. unfold finalLabelsIn.
    by rewrite (metricLabelsIn_order _ _ _ _ Hperm).
Qed.

(** C10, as the code has it.  For a declared name other than the status
    label the committed value follows the precedence: the extractor's entry
    for the name, else the value derived from the method identifier for the
    two derived names, else ["default"].  The status label always takes the
    code of the outcome, whatever the extractor supplied for it.  Entries of
    the extractor's mapping under names that are not declared play no part:
    an extractor whose mapping agrees on the declared names leads to the very
    same result and world.  A tuple is committed when its values are valid
    UTF-8. *)
Theorem label_precedence
    labelExtractor ctx req info handler resp err took w :
  keyed_by_labels (registry w) →
  handler ctx req = Returned resp err took →
  forallb utf8.ValidString
    (resolvedTuple labelExtractor (registry w) ctx info err) = true →
  ∃ lvs elapsed w',
    UnaryServerInterceptor labelExtractor ctx req info handler w
      = Some ((resp, err), w')
    ∧ trace w' = (trace w ++ [EvHandlerCall ctx req;
                              EvHandlerReturn resp err;
                              EvCounterInc lvs;
                              EvHistogramObserve lvs elapsed])%list
    ∧ (∀ i name,
         ServerMetrics.labels (registry w) !! i = Some name →
         name ≠ "grpc_status" →
         lvs !! i
         = Some (precedenceValue (Labels labelExtractor ctx) info name))
    ∧ (∀ i, ServerMetrics.labels (registry w) !! i = Some "grpc_status" →
            lvs !! i = Some (statusLabel err))
    ∧ (∀ labelExtractor',
         (∀ name, name ∈ ServerMetrics.labels (registry w) →
                  Labels labelExtractor' ctx !! name
                  = Labels labelExtractor ctx !! name) →
         UnaryServerInterceptor labelExtractor' ctx req info handler w
         = Some ((resp, err), w')).
Proof.
  intros Hk Hret Hv.
  assert (Hval : ∀ ex i name,
    ServerMetrics.labels (registry w) !! i = Some name →
    orderedLabels (ServerMetrics.labels (registry w))
      (finalLabelsIn (map_to_list (Labels ex ctx)) (registry w) info err) !! i
    = Some (if decide (name = "grpc_status") then statusLabel err
            else precedenceValue (Labels ex ctx) info name)).
  { intros ex i name Hi.
    assert (Hin : name ∈ ServerMetrics.labels (registry w))
      by (apply list_elem_of_lookup; eauto).
    rewrite (orderedLabels_lookup _ _ _ _ Hi).
    by rewrite (finalLabelsIn_declared _ (Labels ex ctx)) by done. }
  eexists _, took, _. split; [by apply interceptor_run|].
  cbn [trace]. split; [done|]. split; [|split].
  - intros i name Hi Hne. by rewrite (Hval _ _ _ Hi), decide_False.
  - intros i Hi. by rewrite (Hval _ _ _ Hi), decide_True.
  - intros labelExtractor' Hagree.
    enough (Heq :
      orderedLabels (ServerMetrics.labels (registry w))
        (finalLabelsIn (map_to_list (Labels labelExtractor' ctx))
                       (registry w) info err)
      = orderedLabels (ServerMetrics.labels (registry w))
          (finalLabelsIn (map_to_list (Labels labelExtractor ctx))
                         (registry w) info err)).
    { rewrite (interceptor_run labelExtractor' _ _ _ _ _ _ _ _ Hk Hret)
        by (by rewrite Heq).
      by rewrite Heq. }
    apply list_eq. intros i.
    destruct (ServerMetrics.labels (registry w) !! i) as [name|] eqn:Hi.
    + rewrite !(Hval _ _ _ Hi). unfold precedenceValue.
      rewrite Hagree by (apply list_elem_of_lookup; eauto). done.
    + apply lookup_ge_None in Hi.
      rewrite !(proj2 (lookup_ge_None _ _)); [done|..];
        by rewrite orderedLabels_length.
Qed.

End LabelProperties.

(** ** The claims about the series of a serving registry *)

Section ServingProperties.

Context {Ctx Req Resp E : Type} `{!LabelExtractor Ctx E}.

Implicit Types (w : World Ctx Req Resp) (labelExtractor : E).

(** Every successful run of the interceptor is a run in which the handler
    returned, and its effect on the world is one [Observe]. *)
Lemma interceptor_step labelExtractor ctx req info
    (handler : @UnaryHandler Ctx Req Resp) w r w' :
  keyed_by_labels (registry w) →
  UnaryServerInterceptor labelExtractor ctx req info handler w = Some (r, w') →
  ∃ lvs elapsed,
    registry w' = Observe lvs elapsed (registry w)
    ∧ ∃ resp err,
        trace w' = (trace w ++ [EvHandlerCall ctx req;
                                EvHandlerReturn resp err;
                                EvCounterInc lvs;
                                EvHistogramObserve lvs elapsed])%list.
Proof.
  intros Hk Hrun. destruct (handler ctx req) as [resp err took|] eqn:Hret.
  - destruct (forallb utf8.ValidString
                (resolvedTuple labelExtractor (registry w) ctx info err))
      eqn:Hv.
    + rewrite (interceptor_run _ _ _ _ _ _ _ _ _ Hk Hret Hv) in Hrun.
      injection Hrun as <- <-. cbn [registry trace]. eauto 10.
    + by rewrite (interceptor_rejected _ _ _ _ _ _ _ _ _ Hret Hv) in Hrun.
  - by rewrite (interceptor_not_returned _ _ _ _ _ _ Hret) in Hrun.
Qed.

(** The series of a serving registry are those of the tuples observed so
    far, each holding what was observed on it. *)
Lemma reachable_series labelExtractor w :
  reachable labelExtractor w →
  keyed_by_labels (registry w)
  ∧ (∀ lvs,
       prom.cv_children (ServerMetrics.serverHandledCounter (registry w))
         !! lvs
       = if decide (increments lvs (trace w) = 0%N) then None
         else Some (increments lvs (trace w)))
  ∧ (∀ lvs,
       prom.hv_children (ServerMetrics.serverHandledHistogram (registry w))
         !! lvs
       = if decide (observations lvs (trace w) = []) then None
         else Some (observations lvs (trace w))).
Proof.
  induction 1 as [now|w ctx req info handler r w' Hreach (Hk & Hc & Hh) Hrun].
  - split; [apply keyed_by_labels_new|]. by split; intros lvs.
  - destruct (interceptor_step _ _ _ _ _ _ _ _ Hk Hrun)
      as (lvs0 & elapsed & -> & resp & err & ->).
    split; [by apply keyed_by_labels_Observe|].
    unfold Observe, prom.counter_value, prom.histogram_samples.
    cbn [ServerMetrics.serverHandledCounter
         ServerMetrics.serverHandledHistogram
         prom.cv_children prom.hv_children].
    split; intros lvs.
    + rewrite increments_app. cbn [increments].
      destruct (decide (lvs0 = lvs)) as [->|Hne].
      * rewrite lookup_insert_eq, Hc.
        destruct (decide (increments lvs (trace w) = 0%N)) as [->|Hnz];
          cbn [default from_option id]; rewrite decide_False by lia; f_equal; lia.
      * rewrite lookup_insert_ne, Hc, N.add_0_r by done. done.
    + rewrite observations_app. cbn [observations].
      destruct (decide (lvs0 = lvs)) as [->|Hne].
      * rewrite lookup_insert_eq, Hh.
        destruct (decide (observations lvs (trace w) = [])) as [->|Hnz];
          cbn [default from_option id app];
          rewrite decide_False by (by destruct (observations lvs (trace w)));
          done.
      * rewrite lookup_insert_ne, Hh, app_nil_r by done. done.
Qed.

(** C8. In a registry that started empty and has served calls through the
    interceptor, a tuple on which nothing was committed has no series in
    what [Collect] enumerates, for the counter and for the histogram alike;
    a series that is enumerated holds exactly the observations committed on
    its tuple, at least one; and a tuple that was observed is enumerated. *)
Theorem unobserved_series_are_absent labelExtractor w lvs :
  reachable labelExtractor w →
  (increments lvs (trace w) = 0%N → lvs ∉ (Collect (registry w)).1.*1)
  ∧ (observations lvs (trace w) = [] → lvs ∉ (Collect (registry w)).2.*1)
  ∧ (∀ n, (lvs, n) ∈ (Collect (registry w)).1 →
          n = increments lvs (trace w) ∧ (0 < n)%N)
  ∧ (∀ xs, (lvs, xs) ∈ (Collect (registry w)).2 →
           xs = observations lvs (trace w) ∧ xs ≠ [])
  ∧ (increments lvs (trace w) ≠ 0%N →
     (lvs, increments lvs (trace w)) ∈ (Collect (registry w)).1).
Proof.
  intros Hreach. destruct (reachable_series _ _ Hreach) as (_ & Hc & Hh).
  specialize (Hc lvs). specialize (Hh lvs).
  unfold Collect, prom.CounterVec_Collect, prom.HistogramVec_Collect.
  cbn [fst snd]. split; [|split; [|split; [|split]]].
  - intros Hz [[k n] [-> Hin]]%list_elem_of_fmap.
    apply elem_of_map_to_list in Hin. cbn [fst] in *.
    rewrite Hc, decide_True in Hin by done. done.
  - intros Hz [[k xs] [-> Hin]]%list_elem_of_fmap.
    apply elem_of_map_to_list in Hin. cbn [fst] in *.
    rewrite Hh, decide_True in Hin by done. done.
  - intros n Hin%elem_of_map_to_list. rewrite Hc in Hin.
    case_decide; [done|]. injection Hin as <-. split; [done|lia].
  - intros xs Hin%elem_of_map_to_list. rewrite Hh in Hin.
    case_decide; [done|]. injection Hin as <-. done.
  - intros Hnz. apply elem_of_map_to_list. by rewrite Hc, decide_False.
Qed.

End ServingProperties.

(** ** The claims at work on the demo service *)

Section Demo.





Lemma status_label_is_outcome_code_witness :
  ∃ lvs (w' : DemoWorld),
    UnaryServerInterceptor statusSettingExtractor tt helloRequest sayHelloInfo
      (failingHandler codes.NotFound 7) statusSettingWorld
    = Some (({| Message := EmptyString |},
             Some (wrapError "lookup"
                     (statusError {| status.code := codes.NotFound;
                                     status.message := "failed" |}))), w')
    ∧ In (EvCounterInc lvs) (trace w')
    ∧ lvs !! 2%nat = Some "NotFound".
Proof.
  destruct (status_label_is_outcome_code statusSettingExtractor tt helloRequest
              sayHelloInfo (failingHandler codes.NotFound 7) _ _ _
              statusSettingWorld ltac:(split; reflexivity) eq_refl
              ltac:(vm_compute; reflexivity))
    as (lvs & elapsed & w' & Hrun & Htr & Hst & _).
  exists lvs, w'. split; [exact Hrun|]. split.
  - rewrite Htr. cbn. tauto.
  - apply (Hst 2%nat). reflexivity.
Defined.

Lemma declared_names_are_resolved_witness :
  "grpc_status" ∈ ServerMetrics.labels grpcMetrics
  ∧ metricLabels grpcMetrics customLabelExtractor tt sayHelloInfo
      !! "grpc_status" = Some "default".
Proof.
  assert (Hin : "grpc_status" ∈ ServerMetrics.labels grpcMetrics)
    by (vm_compute; apply list_elem_of_In; cbn; tauto).
  split; [exact Hin|].
  apply (proj1 (proj2 (declared_names_are_resolved customLabelExtractor tt
                         sayHelloInfo grpcMetrics "grpc_status" Hin)));
    [reflexivity | discriminate | discriminate].
Defined.

Lemma NewServerMetrics_label_set_witness :
  ServerMetrics.labels
    (NewServerMetrics (Ctx := unit)
       {| fixedNames := ["userName"]; fixedLabels := ∅ |})
  = ServerMetrics.labels (NewServerMetrics (Ctx := unit) statusSettingExtractor).
Proof.
  exact (f_equal ServerMetrics.labels
           (proj2 (proj2
              (NewServerMetrics_label_set (Ctx := unit) statusSettingExtractor))
              {| fixedNames := ["userName"]; fixedLabels := ∅ |} eq_refl)).
Defined.

Lemma committed_tuple_follows_declared_order_witness :
  ∃ lvs (w' : DemoWorld),
    UnaryServerInterceptor customLabelExtractor tt helloRequest sayHelloInfo
      (SayHello 10) (startWorld 100) = Some ((helloResponse, None), w')
    ∧ In (EvCounterInc lvs) (trace w')
    ∧ length lvs = 4%nat
    ∧ orderedLabels (ServerMetrics.labels grpcMetrics)
        (finalLabelsIn [("userName", "jordi"); ("appVersion", "v0.5")]
                       grpcMetrics sayHelloInfo None) = lvs
    ∧ orderedLabels (ServerMetrics.labels grpcMetrics)
        (finalLabelsIn [("appVersion", "v0.5"); ("userName", "jordi")]
                       grpcMetrics sayHelloInfo None) = lvs.
Proof.
  destruct (committed_tuple_follows_declared_order customLabelExtractor tt
              helloRequest sayHelloInfo (SayHello 10) helloResponse None 10
              (startWorld 100) ltac:(split; reflexivity) eq_refl
              ltac:(vm_compute; reflexivity))
    as (lvs & elapsed & w' & Hrun & Htr & Hlen & _ & Hord).
  exists lvs, w'. split; [exact Hrun|]. split; [rewrite Htr; cbn; tauto|].
  split; [exact Hlen|].
  assert (Hperm : map_to_list (Labels (Ctx := unit) customLabelExtractor tt)
                  ≡ₚ [("userName", "jordi"); ("appVersion", "v0.5")]).
  { vm_compute. apply Permutation_swap || reflexivity. }
  split; apply Hord; rewrite Hperm; [reflexivity | apply Permutation_swap].
Defined.

Lemma label_precedence_witness :
  ∃ lvs (w' : DemoWorld),
    UnaryServerInterceptor customLabelExtractor tt helloRequest sayHelloInfo
      (SayHello 10) (startWorld 100) = Some ((helloResponse, None), w')
    ∧ In (EvCounterInc lvs) (trace w')
    ∧ lvs !! 0%nat = Some "greet.Greeter"
    ∧ lvs !! 3%nat = Some "jordi".
Proof.
  destruct (label_precedence customLabelExtractor tt helloRequest sayHelloInfo
              (SayHello 10) helloResponse None 10 (startWorld 100)
              ltac:(split; reflexivity) eq_refl
              ltac:(vm_compute; reflexivity))
    as (lvs & elapsed & w' & Hrun & Htr & Hprec & _).
  exists lvs, w'. split; [exact Hrun|]. split; [rewrite Htr; cbn; tauto|].
  split.
  - apply (Hprec 0%nat "grpc_service"); [reflexivity | discriminate].
  - apply (Hprec 3%nat "userName"); [reflexivity | discriminate].
Defined.

Lemma unobserved_series_are_absent_witness :
  ∃ w' : DemoWorld,
    UnaryServerInterceptor customLabelExtractor tt helloRequest sayHelloInfo
      (SayHello 10) (startWorld 100) = Some ((helloResponse, None), w')
    ∧ (["greet.Greeter"; "SayHello"; "Unknown"; "jordi"]
        ∉ (Collect (registry w')).1.*1)
    ∧ ((["greet.Greeter"; "SayHello"; "OK"; "jordi"], 1%N)
        ∈ (Collect (registry w')).1).
Proof.
  eexists. split; [vm_compute; reflexivity|].
  match goal with
  | |- (_ ∉ (Collect (registry ?w)).1.*1) ∧ _ =>
      assert (Hreach : reachable customLabelExtractor w)
  end.
  { apply (reachable_call _ (startWorld 100) tt helloRequest sayHelloInfo
             (SayHello 10) (helloResponse, None)); [apply reachable_start|].
    vm_compute. reflexivity. }
  split.
  - apply (proj1 (unobserved_series_are_absent customLabelExtractor _
                    ["greet.Greeter"; "SayHello"; "Unknown"; "jordi"] Hreach)).
    reflexivity.
  - apply (proj2 (proj2 (proj2 (proj2
             (unobserved_series_are_absent customLabelExtractor _
                ["greet.Greeter"; "SayHello"; "OK"; "jordi"] Hreach))))).
    discriminate.
Defined.

(** C10, as stated, fails for the status label: the extractor's mapping has
    the entry ["teapot"] under the declared name [grpc_status], yet the
    committed value for that name is the outcome's code ["OK"]. *)
Lemma extractor_entry_for_status_is_overridden :
  ∃ lvs (w' : DemoWorld),
    UnaryServerInterceptor statusSettingExtractor tt helloRequest sayHelloInfo
      (SayHello 10) statusSettingWorld = Some ((helloResponse, None), w')
    ∧ trace w' = [EvHandlerCall tt helloRequest; EvHandlerReturn helloResponse None;
                  EvCounterInc lvs; EvHistogramObserve lvs 10]
    ∧ ServerMetrics.labels (registry statusSettingWorld) !! 2%nat
      = Some "grpc_status"
    ∧ Labels (Ctx := unit) statusSettingExtractor tt !! "grpc_status"
      = Some "teapot"
    ∧ lvs !! 2%nat = Some "OK"
    ∧ lvs !! 2%nat
      ≠ Some (precedenceValue (Labels (Ctx := unit) statusSettingExtractor tt)
                sayHelloInfo "grpc_status").
Proof.
  eexists _, _. split; [vm_compute; reflexivity|].
  split; [reflexivity|]. split; [reflexivity|]. split; [reflexivity|].
  split; [reflexivity|]. vm_compute. discriminate.
Qed.

End Demo.

(** * Further properties of the code *)

(** ** [splitMethodName] *)

Section MethodNameProperties.

Lemma has_slash_cut t :
  has_slash t = true →
  ∃ a b, t = a +:+ "/" +:+ b ∧ has_slash a = false.
Proof.
  induction t as [|c t IH]; [discriminate|]. cbn [has_slash].
  destruct (Ascii.eqb_spec c "/") as [->|Hne].
  - intros _. by exists EmptyString, t.
  - intros (a & b & -> & Ha)%IH. exists (String c a), b. split; [done|].
    cbn [has_slash]. by destruct (Ascii.eqb_spec c "/").
Qed.

Lemma splitMethodName_cut fullMethodName a b :
  strip_leading_slash fullMethodName = a +:+ "/" +:+ b →
  has_slash a = false →
  splitMethodName fullMethodName = (a, b).
Proof.
  intros Heq Ha. unfold splitMethodName.
  rewrite TrimPrefix_slash, Heq, (Index_first_slash _ _ Ha).
  destruct (Z.leb_spec 0 (Z.of_nat (String.length a))); [|lia].
  rewrite Nat2Z.id, sliceTo_app.
  replace (Z.to_nat (Z.of_nat (String.length a) + 1))
    with (S (String.length a)) by lia.
  change (a +:+ "/" +:+ b) with (a +:+ String "/" b).
  by rewrite sliceFrom_past_separator.
Qed.

Lemma splitMethodName_no_slash fullMethodName :
  has_slash (strip_leading_slash fullMethodName) = false →
  splitMethodName fullMethodName = ("unknown", "unknown").
Proof.
  intros H. unfold splitMethodName. rewrite TrimPrefix_slash.
  by rewrite (Index_no_slash _ H).
Qed.

(** X1. When a ['/'] is left after the leading one is stripped, service and
    method put back around a ['/'] give the stripped identifier again, and
    the service holds no ['/']: the cut is at the first one, further ones
    stay in the method. *)
Theorem splitMethodName_recomposes fullMethodName :
  has_slash (strip_leading_slash fullMethodName) = true →
  strip_leading_slash fullMethodName
  = (splitMethodName fullMethodName).1 +:+ "/"
      +:+ (splitMethodName fullMethodName).2
  ∧ has_slash (splitMethodName fullMethodName).1 = false.
Proof.
  intros (a & b & Heq & Ha)%has_slash_cut.
  by rewrite (splitMethodName_cut _ _ _ Heq Ha).
Qed.

Lemma splitMethodName_recomposes_witness :
  "a//b/c" = (splitMethodName "/a//b/c").1 +:+ "/"
               +:+ (splitMethodName "/a//b/c").2
  ∧ has_slash (splitMethodName "/a//b/c").1 = false.
Proof. apply (splitMethodName_recomposes "/a//b/c"). reflexivity. Defined.

(** X2. The pair [("unknown", "unknown")] does not tell a malformed identifier
    from a well-formed one: it is the result exactly when no ['/'] is left
    after stripping, or when the stripped identifier is
    ["unknown/unknown"]. *)
Theorem splitMethodName_unknown_iff fullMethodName :
  splitMethodName fullMethodName = ("unknown", "unknown")
  ↔ has_slash (strip_leading_slash fullMethodName) = false
    ∨ strip_leading_slash fullMethodName = "unknown/unknown".
Proof.
  split.
  - intros Hsplit.
    destruct (has_slash (strip_leading_slash fullMethodName)) eqn:Hs;
      [right|by left].
    apply has_slash_cut in Hs as (a & b & Heq & Ha).
    rewrite (splitMethodName_cut _ _ _ Heq Ha) in Hsplit.
    injection Hsplit as -> ->. exact Heq.
  - intros [Hs|Heq]; [by apply splitMethodName_no_slash|].
    by apply (splitMethodName_cut _ "unknown" "unknown").
Qed.

(** X3. The index at which [splitMethodName] slices is inside the string it
    slices: neither slice expression can go out of range. *)
Theorem splitMethodName_slices_in_range fullMethodName :
  let trimmed := strings.TrimPrefix fullMethodName "/" in
  let i := strings.Index trimmed "/" in
  0 ≤ i →
  i + 1 ≤ Z.of_nat (String.length trimmed)
  ∧ String.length (strings.sliceTo (Z.to_nat i) trimmed) = Z.to_nat i
  ∧ String.length (strings.sliceFrom (Z.to_nat (i + 1)) trimmed)
    = (String.length trimmed - Z.to_nat (i + 1))%nat.
Proof.
  intros trimmed i Hi.
  assert (Hrange := Index_in_range trimmed "/" Hi). fold i in Hrange.
  cbn [String.length] in Hrange.
  assert (Hto : ∀ n s, (n ≤ String.length s)%nat →
                       String.length (strings.sliceTo n s) = n).
  { induction n as [|n IH]; intros [|c s] Hn; cbn in *; try lia.
    rewrite IH; lia. }
  assert (Hfrom : ∀ n s, String.length (strings.sliceFrom n s)
                         = (String.length s - n)%nat).
  { induction n as [|n IH]; intros [|c s]; cbn; try lia. apply IH. }
  split; [lia|]. split; [apply Hto; lia|apply Hfrom].
Qed.

Lemma splitMethodName_slices_in_range_witness :
  strings.Index (strings.TrimPrefix "/pkg.Svc/Do" "/") "/" + 1
  ≤ Z.of_nat (String.length (strings.TrimPrefix "/pkg.Svc/Do" "/")).
Proof.
  apply (splitMethodName_slices_in_range "/pkg.Svc/Do"). vm_compute.
  discriminate.
Defined.

End MethodNameProperties.

(** ** Label values and UTF-8 *)

Section Utf8Facts.

Lemma scan_app q a b :
  utf8.scan q (a +:+ b)
  = match utf8.scan q a with
    | Some q' => utf8.scan q' b
    | None => None
    end.
Proof.
  revert q. induction a as [|c a IH]; intros q; [reflexivity|].
  change (String c a +:+ b) with (String c (a +:+ b)). cbn [utf8.scan].
  destruct (utf8.step q (N_of_ascii c)); [apply IH|reflexivity].
Qed.

(** A ['/'] can only stand between two encoded characters. *)
Lemma scan_slash q b :
  utf8.scan q (String "/" b)
  = match q with
    | utf8.boundary => utf8.scan utf8.boundary b
    | _ => None
    end.
Proof. by destruct q. Qed.

Lemma ValidString_cut a b :
  utf8.ValidString (a +:+ "/" +:+ b) = true →
  utf8.ValidString a = true ∧ utf8.ValidString b = true.
Proof.
  unfold utf8.ValidString. rewrite scan_app.
  destruct (utf8.scan utf8.boundary a) as [q|]; [|done].
  change ("/" +:+ b) with (String "/" b). rewrite scan_slash.
  by destruct q.
Qed.

Lemma ValidString_strip s :
  utf8.ValidString s = true →
  utf8.ValidString (strip_leading_slash s) = true.
Proof.
  destruct s as [|c s]; [done|].
  destruct (Ascii.eqb_spec c "/") as [->|Hne].
  - unfold utf8.ValidString. by rewrite scan_slash.
  - intros Hv. enough (strip_leading_slash (String c s) = String c s) as ->
      by done.
    destruct c as [[] [] [] [] [] [] [] []]; try reflexivity. congruence.
Qed.

(** Service and method of a method identifier that is valid UTF-8 are
    valid UTF-8. *)
Lemma splitMethodName_valid fullMethodName :
  utf8.ValidString fullMethodName = true →
  utf8.ValidString (splitMethodName fullMethodName).1 = true
  ∧ utf8.ValidString (splitMethodName fullMethodName).2 = true.
Proof.
  intros Hv%ValidString_strip.
  destruct (has_slash (strip_leading_slash fullMethodName)) eqn:Hs.
  - apply has_slash_cut in Hs as (a & b & Heq & Ha).
    rewrite (splitMethodName_cut _ _ _ Heq Ha). rewrite Heq in Hv.
    by apply ValidString_cut.
  - by rewrite (splitMethodName_no_slash _ Hs).
Qed.

Lemma statusLabel_valid err : utf8.ValidString (statusLabel err) = true.
Proof.
  assert (Hcode : ∀ c, utf8.ValidString (codes.toString c) = true)
    by (by intros []).
  unfold statusLabel. apply Hcode.
Qed.

End Utf8Facts.

(** ** The registry over many calls *)

Section ServingMore.

Context {Ctx Req Resp E : Type} `{!LabelExtractor Ctx E}.

Implicit Types (w : World Ctx Req Resp) (m : ServerMetrics.t).
Implicit Types (labelExtractor : E) (c : Call Ctx Req Resp).
Implicit Types (calls : list (Call Ctx Req Resp)).

Lemma reachable_label_set labelExtractor w :
  reachable labelExtractor w →
  keyed_by_labels (registry w)
  ∧ ServerMetrics.labels (registry w)
    = (baseLabels ++ LabelNames labelExtractor)%list.
Proof.
  induction 1 as [now|w ctx req info handler r w' Hreach [Hk Hl] Hrun].
  - split; [apply keyed_by_labels_new|done].
  - destruct (interceptor_step _ _ _ _ _ _ _ _ Hk Hrun)
      as (lvs & elapsed & -> & _).
    split; [by apply keyed_by_labels_Observe|done].
Qed.

Lemma reachable_trace_in_step labelExtractor w lvs :
  reachable labelExtractor w →
  increments lvs (trace w) = N.of_nat (length (observations lvs (trace w))).
Proof.
  induction 1 as [now|w ctx req info handler r w' Hreach IH Hrun]; [done|].
  destruct (reachable_label_set _ _ Hreach) as [Hk _].
  destruct (interceptor_step _ _ _ _ _ _ _ _ Hk Hrun)
    as (lvs0 & elapsed & _ & resp & err & ->).
  rewrite increments_app, observations_app, length_app, IH.
  cbn [increments observations]. case_decide; cbn [length]; lia.
Qed.

Lemma callTuple_label_set labelExtractor m m' c :
  ServerMetrics.labels m = ServerMetrics.labels m' →
  callTuple labelExtractor m c = callTuple labelExtractor m' c.
Proof.
  intros Hl. unfold callTuple, finalLabelsIn, metricLabelsIn.
  by rewrite Hl.
Qed.

Lemma callsOn_label_set labelExtractor m m' lvs calls :
  ServerMetrics.labels m = ServerMetrics.labels m' →
  callsOn labelExtractor m lvs calls = callsOn labelExtractor m' lvs calls.
Proof.
  intros Hl. unfold callsOn. f_equal.
  induction calls as [|c calls IH]; [done|].
  rewrite !filter_cons, IH, (callTuple_label_set _ m m' c Hl). done.
Qed.

Lemma callsOn_cons labelExtractor m lvs c calls :
  callsOn labelExtractor m lvs (c :: calls)
  = ((if decide (callTuple labelExtractor m c = Some lvs) then 1 else 0)
     + callsOn labelExtractor m lvs calls)%nat.
Proof. unfold callsOn. rewrite filter_cons. by case_decide. Qed.

(** X4. One call leaves the Label Set and the keying of the vectors as they
    were: the registry's shape is fixed at construction. *)
Theorem interceptor_keeps_label_set
    labelExtractor ctx req info (handler : @UnaryHandler Ctx Req Resp)
    w r w' :
  keyed_by_labels (registry w) →
  UnaryServerInterceptor labelExtractor ctx req info handler w = Some (r, w') →
  ServerMetrics.labels (registry w') = ServerMetrics.labels (registry w)
  ∧ prom.cv_variableLabels (ServerMetrics.serverHandledCounter (registry w'))
    = prom.cv_variableLabels (ServerMetrics.serverHandledCounter (registry w))
  ∧ prom.hv_variableLabels
      (ServerMetrics.serverHandledHistogram (registry w'))
    = prom.hv_variableLabels
        (ServerMetrics.serverHandledHistogram (registry w))
  ∧ keyed_by_labels (registry w').
Proof.
  intros Hk Hrun.
  destruct (interceptor_step _ _ _ _ _ _ _ _ Hk Hrun)
    as (lvs & elapsed & -> & _).
  repeat split; try done; by apply keyed_by_labels_Observe.
Qed.


(** X6. Counter and histogram stay in step: in a serving registry the counter
    of every tuple equals the number of samples of its histogram, and a
    tuple has a counter series exactly when it has a histogram series. *)
Theorem counter_and_histogram_in_step labelExtractor w lvs :
  reachable labelExtractor w →
  prom.counter_value (ServerMetrics.serverHandledCounter (registry w)) lvs
  = N.of_nat
      (length (prom.histogram_samples
                 (ServerMetrics.serverHandledHistogram (registry w)) lvs))
  ∧ (is_Some (prom.cv_children
                (ServerMetrics.serverHandledCounter (registry w)) !! lvs)
     ↔ is_Some (prom.hv_children
                  (ServerMetrics.serverHandledHistogram (registry w))
                  !! lvs)).
Proof.
  intros Hreach. destruct (reachable_series _ _ Hreach) as (_ & Hc & Hh).
  pose proof (reachable_trace_in_step _ _ lvs Hreach) as Hstep.
  unfold prom.counter_value, prom.histogram_samples.
  rewrite (Hc lvs), (Hh lvs), Hstep.
  destruct (observations lvs (trace w)) as [|x xs]; cbn.
  - split; [done|]. split; intros [? ?]; done.
  - rewrite decide_False by lia. cbn. split; [done|]. split; by eexists.
Qed.

(** X7. A call never removes a series and never lowers one: a counter that was
    there is still there and not smaller, and the samples a histogram held
    are a prefix of those it holds afterwards. *)
Theorem series_only_grow
    labelExtractor ctx req info (handler : @UnaryHandler Ctx Req Resp)
    w r w' lvs :
  keyed_by_labels (registry w) →
  UnaryServerInterceptor labelExtractor ctx req info handler w = Some (r, w') →
  (∀ n, prom.cv_children (ServerMetrics.serverHandledCounter (registry w))
          !! lvs = Some n →
        ∃ n', prom.cv_children
                (ServerMetrics.serverHandledCounter (registry w')) !! lvs
              = Some n' ∧ (n ≤ n')%N)
  ∧ (∀ xs, prom.hv_children
             (ServerMetrics.serverHandledHistogram (registry w)) !! lvs
           = Some xs →
           ∃ xs', prom.hv_children
                    (ServerMetrics.serverHandledHistogram (registry w'))
                    !! lvs = Some xs'
                  ∧ xs `prefix_of` xs').
Proof.
  intros Hk Hrun.
  destruct (interceptor_step _ _ _ _ _ _ _ _ Hk Hrun)
    as (lvs0 & elapsed & -> & _).
  unfold Observe, prom.counter_value, prom.histogram_samples.
  cbn [ServerMetrics.serverHandledCounter ServerMetrics.serverHandledHistogram
       prom.cv_children prom.hv_children].
  split.
  - intros n Hn. destruct (decide (lvs0 = lvs)) as [->|Hne].
    + rewrite lookup_insert_eq, Hn. eexists. split; [done|]. cbn. lia.
    + rewrite lookup_insert_ne by done. eexists. split; [done|]. lia.
  - intros xs Hxs. destruct (decide (lvs0 = lvs)) as [->|Hne].
    + rewrite lookup_insert_eq, Hxs. eexists. split; [done|].
      by apply prefix_app_r.
    + rewrite lookup_insert_ne by done. by eexists.
Qed.


(** X9. After a list of calls every tuple's counter has gone up by the number
    of calls that resolve to the tuple, and its histogram has gained as many
    samples: no observation is lost or counted twice. *)
Theorem serve_counts labelExtractor calls w w' lvs :
  keyed_by_labels (registry w) →
  serve labelExtractor calls w = Some w' →
  prom.counter_value (ServerMetrics.serverHandledCounter (registry w')) lvs
  = (prom.counter_value (ServerMetrics.serverHandledCounter (registry w)) lvs
     + N.of_nat (callsOn labelExtractor (registry w) lvs calls))%N
  ∧ length (prom.histogram_samples
              (ServerMetrics.serverHandledHistogram (registry w')) lvs)
    = (length (prom.histogram_samples
                 (ServerMetrics.serverHandledHistogram (registry w)) lvs)
       + callsOn labelExtractor (registry w) lvs calls)%nat.
Proof.
  revert w. induction calls as [|c calls IH]; intros w Hk Hserve.
  - injection Hserve as <-. unfold callsOn. cbn. split; lia.
  - cbn [serve] in Hserve.
    destruct (callHandler c (callCtx c) (callReq c))
      as [resp err took|] eqn:Hret;
      [|by rewrite (interceptor_not_returned _ _ _ _ _ _ Hret) in Hserve].
    destruct (forallb utf8.ValidString
                (resolvedTuple labelExtractor (registry w) (callCtx c)
                   (callInfo c) err)) eqn:Hv;
      [|by rewrite (interceptor_rejected _ _ _ _ _ _ _ _ _ Hret Hv)
          in Hserve].
    rewrite (interceptor_run _ _ _ _ _ _ _ _ _ Hk Hret Hv) in Hserve.
    apply IH in Hserve as [Hc Hh];
      [|by apply keyed_by_labels_Observe].
    cbn [registry] in Hc, Hh.
    rewrite <- (callsOn_label_set _ (registry w)) in Hc, Hh by done.
    assert (Htuple : callTuple labelExtractor (registry w) c
              = Some (orderedLabels (ServerMetrics.labels (registry w))
                        (finalLabelsIn
                           (map_to_list (Labels labelExtractor (callCtx c)))
                           (registry w) (callInfo c) err)))
      by (unfold callTuple; by rewrite Hret).
    rewrite Hc, Hh, callsOn_cons, Htuple.
    unfold Observe, prom.counter_value, prom.histogram_samples.
    cbn [ServerMetrics.serverHandledCounter
         ServerMetrics.serverHandledHistogram
         prom.cv_children prom.hv_children].
    case_decide as Heq.
    + injection Heq as Heq. rewrite Heq, !lookup_insert_eq.
      cbn [default from_option id]. rewrite length_app.
      cbn [length]. split; lia.
    + rewrite !lookup_insert_ne by congruence. split; lia.
Qed.

End ServingMore.

(** ** The tuple of one call *)

Section TupleProperties.

Context {Ctx Req Resp : Type}.

Implicit Types (w : World Ctx Req Resp).
Implicit Types (handler : @UnaryHandler Ctx Req Resp).

(** The committed tuple of a registry built by [NewServerMetrics]: the
    three base values, then one value per name the extractor declared. *)
Lemma committed_tuple_closed_form {E} `{!LabelExtractor Ctx E}
    (labelExtractor : E) m (names : list string) order extracted info err :
  ServerMetrics.labels m = (baseLabels ++ names)%list →
  order ≡ₚ map_to_list extracted →
  orderedLabels (ServerMetrics.labels m) (finalLabelsIn order m info err)
  = ([precedenceValue extracted info "grpc_service";
      precedenceValue extracted info "grpc_method";
      statusLabel err]
     ++ ((λ name, if decide (name = "grpc_status") then statusLabel err
                  else precedenceValue extracted info name) <$> names))%list.
Proof.
  intros Hl Hperm. apply list_eq. intros i.
  destruct (ServerMetrics.labels m !! i) as [name|] eqn:Hi.
  - rewrite (orderedLabels_lookup _ _ _ _ Hi).
    rewrite (finalLabelsIn_declared _ _ _ _ _ _ Hperm)
      by (apply list_elem_of_lookup; eauto).
    rewrite Hl in Hi. unfold baseLabels in Hi.
    destruct i as [|[|[|i]]]; cbn [app lookup list_lookup] in Hi |- *.
    + by injection Hi as <-.
    + by injection Hi as <-.
    + by injection Hi as <-.
    + etrans; [|symmetry; apply list_lookup_fmap].
      by destruct (names !! i) as [name'|]; simplify_eq.
  - pose proof Hi as Hge%lookup_ge_None.
    rewrite (proj2 (lookup_ge_None _ _)) by (by rewrite orderedLabels_length).
    symmetry. apply lookup_ge_None.
    rewrite Hl, length_app in Hge. rewrite length_app, length_fmap.
    cbn in *. lia.
Qed.

(** X10. With the default extractor a serving registry has the three base
    labels only, and every call whose method identifier is valid UTF-8 is
    committed on the tuple of its service, its method and the code of its
    outcome. *)
Theorem default_extractor_tuple
    (d : DefaultLabelExtractor) ctx req info handler resp err took w :
  reachable d w →
  handler ctx req = Returned resp err took →
  utf8.ValidString (FullMethod info) = true →
  let lvs := [(splitMethodName (FullMethod info)).1;
              (splitMethodName (FullMethod info)).2;
              statusLabel err] in
  ∃ w', UnaryServerInterceptor d ctx req info handler w
          = Some ((resp, err), w')
        ∧ trace w' = (trace w ++ [EvHandlerCall ctx req;
                                  EvHandlerReturn resp err;
                                  EvCounterInc lvs;
                                  EvHistogramObserve lvs took])%list.
Proof.
  intros Hreach Hret Hfull lvs.
  destruct (reachable_label_set _ _ Hreach) as [Hk Hl].
  destruct (splitMethodName_valid _ Hfull) as [Hs Hm].
  assert (Hlvs :
    orderedLabels (ServerMetrics.labels (registry w))
      (finalLabelsIn (map_to_list (Labels d ctx)) (registry w) info err)
    = lvs)
    by (by rewrite (committed_tuple_closed_form d _ _ _ (Labels d ctx)
                      _ _ Hl)).
  assert (Hv : forallb utf8.ValidString lvs = true).
  { unfold lvs. cbn [forallb]. by rewrite Hs, Hm, statusLabel_valid. }
  rewrite <- Hlvs in Hv.
  eexists. split; [by apply interceptor_run|]. cbn [trace].
  by rewrite Hlvs.
Qed.

(** X11. With the extractor of the demo server every call whose method
    identifier is valid UTF-8 is committed on the tuple of its service, its
    method, the code of its outcome and the user name ["jordi"]; the
    extractor's [appVersion] entry reaches no series. *)
Theorem custom_extractor_tuple
    (x : CustomLabelExtractor) ctx req info handler resp err took w :
  reachable x w →
  handler ctx req = Returned resp err took →
  utf8.ValidString (FullMethod info) = true →
  let lvs := [(splitMethodName (FullMethod info)).1;
              (splitMethodName (FullMethod info)).2;
              statusLabel err; "jordi"] in
  ∃ w', UnaryServerInterceptor x ctx req info handler w
          = Some ((resp, err), w')
        ∧ trace w' = (trace w ++ [EvHandlerCall ctx req;
                                  EvHandlerReturn resp err;
                                  EvCounterInc lvs;
                                  EvHistogramObserve lvs took])%list.
Proof.
  intros Hreach Hret Hfull lvs.
  destruct (reachable_label_set _ _ Hreach) as [Hk Hl].
  destruct (splitMethodName_valid _ Hfull) as [Hs Hm].
  assert (Hlvs :
    orderedLabels (ServerMetrics.labels (registry w))
      (finalLabelsIn (map_to_list (Labels x ctx)) (registry w) info err)
    = lvs)
    by (by rewrite (committed_tuple_closed_form x _ _ _ (Labels x ctx)
                      _ _ Hl)).
  assert (Hv : forallb utf8.ValidString lvs = true).
  { unfold lvs. cbn [forallb]. by rewrite Hs, Hm, statusLabel_valid. }
  rewrite <- Hlvs in Hv.
  eexists. split; [by apply interceptor_run|]. cbn [trace].
  by rewrite Hlvs.
Qed.

Context {E : Type} `{!LabelExtractor Ctx E}.

Implicit Types (labelExtractor : E).

(** X12. The sample a call adds to the histogram is the time between the
    creation of the reporter, before the handler is invoked, and the commit,
    after it has returned: the handler's run lies within the measured span,
    and the sample does not depend on the outcome.  A sample is added when
    the values of the tuple are valid UTF-8. *)
Theorem observed_duration_spans_the_handler
    labelExtractor ctx req info handler resp err took w :
  keyed_by_labels (registry w) →
  handler ctx req = Returned resp err took →
  forallb utf8.ValidString
    (resolvedTuple labelExtractor (registry w) ctx info err) = true →
  ∃ lvs w',
    UnaryServerInterceptor labelExtractor ctx req info handler w
      = Some ((resp, err), w')
    ∧ last (trace w') = Some (EvHistogramObserve lvs (clock w' - clock w))
    ∧ clock w' = clock w + took.
Proof.
  intros Hk Hret Hv. eexists _, _. split; [by apply interceptor_run|].
  cbn [trace clock]. split; [|done].
  rewrite last_app. cbn. do 2 f_equal. lia.
Qed.

(** X13. A name that occurs twice in the Label Set, as when the extractor
    declares a base name again, gets the same value at both positions, and
    the call is committed all the same, its values being valid UTF-8. *)
Theorem duplicate_names_get_equal_values
    labelExtractor ctx req info handler resp err took w :
  keyed_by_labels (registry w) →
  handler ctx req = Returned resp err took →
  forallb utf8.ValidString
    (resolvedTuple labelExtractor (registry w) ctx info err) = true →
  ∃ lvs elapsed w',
    UnaryServerInterceptor labelExtractor ctx req info handler w
      = Some ((resp, err), w')
    ∧ trace w' = (trace w ++ [EvHandlerCall ctx req;
                              EvHandlerReturn resp err;
                              EvCounterInc lvs;
                              EvHistogramObserve lvs elapsed])%list
    ∧ ∀ i j name,
        ServerMetrics.labels (registry w) !! i = Some name →
        ServerMetrics.labels (registry w) !! j = Some name →
        lvs !! i = lvs !! j.
Proof.
  intros Hk Hret Hv. eexists _, took, _. split; [by apply interceptor_run|].
  cbn [trace]. split; [done|]. intros i j name Hi Hj.
  by rewrite (orderedLabels_lookup _ _ _ _ Hi),
             (orderedLabels_lookup _ _ _ _ Hj).
Qed.

End TupleProperties.

(** ** The first version of the interceptor *)

Section V1Properties.

Context {Ctx Other Resp : Type}.

Implicit Types (w : V1.World Ctx Other Resp).
Implicit Types (handler : @V1.UnaryHandler Ctx Other Resp).
Implicit Types (req : V1.request Other).

Lemma v1_keyed_new : V1.keyed V1.NewServerMetrics.
Proof. by split. Qed.

Lemma v1_keyed_Observe lvs x m : V1.keyed m → V1.keyed (V1.Observe lvs x m).
Proof. by intros [??]. Qed.

Lemma v1_Handled_run (r : V1.serverReporter) w :
  V1.keyed (V1.registry w) →
  let lvs := [V1.serviceName r; V1.methodName r; V1.customLabel r] in
  let elapsed := V1.clock w - V1.startTime r in
  forallb utf8.ValidString lvs = true →
  V1.Handled r w
  = Some {| V1.registry := V1.Observe lvs elapsed (V1.registry w);
            V1.clock := V1.clock w;
            V1.trace := (V1.trace w ++ [V1.EvCounterInc lvs;
                                        V1.EvHistogramObserve lvs elapsed])%list |}.
Proof.
  intros [Hc Hh] lvs elapsed Hv.
  destruct (counter_commit (V1.serverHandledCounter (V1.registry w)) lvs)
    as (cv & Hcv & Hinc); [by rewrite Hc|done|].
  destruct (histogram_commit (V1.serverHandledHistogram (V1.registry w))
              lvs elapsed) as (hv & Hhv & Hobs); [by rewrite Hh|done|].
  unfold V1.Handled. fold lvs. rewrite Hcv. cbn. fold elapsed.
  rewrite Hhv. cbn. unfold V1.emit. cbn.
  rewrite Hinc, Hobs, <- app_assoc. reflexivity.
Qed.

Lemma v1_Handled_rejected (r : V1.serverReporter) w :
  forallb utf8.ValidString
    [V1.serviceName r; V1.methodName r; V1.customLabel r] = false →
  V1.Handled r w = None.
Proof.
  intros Hv. unfold V1.Handled, prom.CounterVec_WithLabelValues.
  by rewrite validateLabelValues_false.
Qed.

Lemma v1_interceptor_run ctx req info handler label resp err took w :
  V1.keyed (V1.registry w) →
  V1.CustomLabel req = Some label →
  handler ctx req = Returned resp err took →
  let lvs := [(splitMethodName (FullMethod info)).1;
              (splitMethodName (FullMethod info)).2; label] in
  forallb utf8.ValidString lvs = true →
  V1.UnaryServerInterceptor ctx req info handler w
  = Some ((resp, err),
          {| V1.registry := V1.Observe lvs took (V1.registry w);
             V1.clock := V1.clock w + took;
             V1.trace :=
               (V1.trace w
                ++ [V1.EvPrintf ("Type: %T" +:+ V1.newline) req;
                    V1.EvPrintf ("Value: %v" +:+ V1.newline) req;
                    V1.EvHandlerCall ctx req;
                    V1.EvHandlerReturn resp err;
                    V1.EvCounterInc lvs;
                    V1.EvHistogramObserve lvs took])%list |}).
Proof.
  intros Hk Hlabel Hret lvs Hv. unfold V1.UnaryServerInterceptor.
  unfold lvs in *.
  destruct (splitMethodName (FullMethod info)) as [service method].
  rewrite Hlabel, Hret. cbn [mbind option_bind].
  rewrite v1_Handled_run by done. cbn.
  rewrite <- !app_assoc. cbn.
  by replace (V1.clock w + took - V1.clock w) with took by lia.
Qed.

Lemma v1_interceptor_rejected ctx req info handler label resp err took w :
  V1.CustomLabel req = Some label →
  handler ctx req = Returned resp err took →
  forallb utf8.ValidString
    [(splitMethodName (FullMethod info)).1;
     (splitMethodName (FullMethod info)).2; label] = false →
  V1.UnaryServerInterceptor ctx req info handler w = None.
Proof.
  intros Hlabel Hret Hv. unfold V1.UnaryServerInterceptor.
  destruct (splitMethodName (FullMethod info)) as [service method].
  rewrite Hlabel, Hret. cbn [mbind option_bind].
  by rewrite v1_Handled_rejected.
Qed.

Lemma v1_interceptor_step ctx req info handler w r w' :
  V1.keyed (V1.registry w) →
  V1.UnaryServerInterceptor ctx req info handler w = Some (r, w') →
  ∃ lvs elapsed,
    V1.tupleOf info req = Some lvs
    ∧ V1.registry w' = V1.Observe lvs elapsed (V1.registry w).
Proof.
  intros Hk Hrun.
  destruct (V1.CustomLabel req) as [label|] eqn:Hlabel.
  - destruct (handler ctx req) as [resp err took|] eqn:Hret.
    + destruct (forallb utf8.ValidString
                  [(splitMethodName (FullMethod info)).1;
                   (splitMethodName (FullMethod info)).2; label]) eqn:Hv;
        [|by rewrite (v1_interceptor_rejected _ _ _ _ _ _ _ _ _
                        Hlabel Hret Hv) in Hrun].
      rewrite (v1_interceptor_run _ _ _ _ _ _ _ _ _ Hk Hlabel Hret Hv)
        in Hrun.
      injection Hrun as <- <-. eexists _, took. split; [|done].
      unfold V1.tupleOf. by rewrite Hlabel.
    + unfold V1.UnaryServerInterceptor in Hrun.
      destruct (splitMethodName (FullMethod info)).
      by rewrite Hlabel, Hret in Hrun.
  - unfold V1.UnaryServerInterceptor in Hrun.
    destruct (splitMethodName (FullMethod info)).
    by rewrite Hlabel in Hrun.
Qed.

(** X14. When the label can be read off the request, the handler returns
    and service, method and label are valid UTF-8, the first version commits
    exactly one observation, on the tuple of the three, after printing the
    request twice and running the handler once, and returns the handler's
    result as it is; when one of the three is not valid UTF-8 it panics
    instead. *)
Theorem v1_commits_exactly_once ctx req info handler label resp err took w :
  V1.keyed (V1.registry w) →
  V1.CustomLabel req = Some label →
  handler ctx req = Returned resp err took →
  let lvs := [(splitMethodName (FullMethod info)).1;
              (splitMethodName (FullMethod info)).2; label] in
  (forallb utf8.ValidString lvs = true →
  ∃ w',
    V1.UnaryServerInterceptor ctx req info handler w = Some ((resp, err), w')
    ∧ V1.trace w'
      = (V1.trace w
         ++ [V1.EvPrintf ("Type: %T" +:+ V1.newline) req;
             V1.EvPrintf ("Value: %v" +:+ V1.newline) req;
             V1.EvHandlerCall ctx req;
             V1.EvHandlerReturn resp err;
             V1.EvCounterInc lvs;
             V1.EvHistogramObserve lvs took])%list
    ∧ prom.counter_value (V1.serverHandledCounter (V1.registry w')) lvs
      = N.succ (prom.counter_value
                  (V1.serverHandledCounter (V1.registry w)) lvs)
    ∧ prom.histogram_samples (V1.serverHandledHistogram (V1.registry w')) lvs
      = (prom.histogram_samples
           (V1.serverHandledHistogram (V1.registry w)) lvs ++ [took])%list
    ∧ ∀ lvs', lvs' ≠ lvs →
        prom.cv_children (V1.serverHandledCounter (V1.registry w')) !! lvs'
        = prom.cv_children (V1.serverHandledCounter (V1.registry w)) !! lvs'
        ∧ prom.hv_children (V1.serverHandledHistogram (V1.registry w'))
            !! lvs'
          = prom.hv_children (V1.serverHandledHistogram (V1.registry w))
              !! lvs')
  ∧ (forallb utf8.ValidString lvs = false →
     V1.UnaryServerInterceptor ctx req info handler w = None).
Proof.
  intros Hk Hlabel Hret lvs.
  split; [|by apply (v1_interceptor_rejected _ _ _ _ _ _ _ _ _ Hlabel Hret)].
  intros Hv.
  eexists. split; [by apply v1_interceptor_run|].
  cbn [V1.trace V1.registry]. split; [done|].
  unfold V1.Observe, prom.counter_value, prom.histogram_samples.
  cbn [V1.serverHandledCounter V1.serverHandledHistogram
       prom.cv_children prom.hv_children].
  rewrite !lookup_insert_eq. do 2 (split; [done|]).
  intros lvs' Hne. by rewrite !lookup_insert_ne.
Qed.

(** X15. In the first version the outcome of the call is no label: a handler
    that fails and one that succeeds, taking the same time, leave the
    registry in the same state.  The call is committed when service, method
    and label are valid UTF-8. *)
Theorem v1_outcome_is_not_recorded
    ctx req info handler1 handler2 label resp1 err1 resp2 err2 took w :
  V1.keyed (V1.registry w) →
  V1.CustomLabel req = Some label →
  handler1 ctx req = Returned resp1 err1 took →
  handler2 ctx req = Returned resp2 err2 took →
  forallb utf8.ValidString
    [(splitMethodName (FullMethod info)).1;
     (splitMethodName (FullMethod info)).2; label] = true →
  ∃ w1 w2,
    V1.UnaryServerInterceptor ctx req info handler1 w
      = Some ((resp1, err1), w1)
    ∧ V1.UnaryServerInterceptor ctx req info handler2 w
      = Some ((resp2, err2), w2)
    ∧ V1.registry w1 = V1.registry w2
    ∧ V1.Collect (V1.registry w1) = V1.Collect (V1.registry w2).
Proof.
  intros Hk Hlabel Hret1 Hret2 Hv. eexists _, _.
  split; [by apply v1_interceptor_run|].
  split; [by apply v1_interceptor_run|]. done.
Qed.

(** X16. The first version returns exactly when the request resolves to a
    tuple, its values are valid UTF-8 and the handler returns.  A request
    that is a nil pointer to a [HelloRequest] resolves to none, reading its
    field panics: the interceptor then does not return, whatever the handler
    would do. *)
Theorem v1_returns_iff ctx req info handler w :
  V1.keyed (V1.registry w) →
  (is_Some (V1.UnaryServerInterceptor ctx req info handler w)
   ↔ (∃ lvs, V1.tupleOf info req = Some lvs
             ∧ forallb utf8.ValidString lvs = true)
     ∧ ∃ resp err took, handler ctx req = Returned resp err took)
  ∧ (V1.tupleOf info req = None ↔ req = V1.helloRequestPtr None)
  ∧ V1.UnaryServerInterceptor ctx (V1.helloRequestPtr None) info handler w
    = None.
Proof.
  intros Hk. split; [|split].
  - unfold V1.tupleOf.
    destruct (V1.CustomLabel req) as [label|] eqn:Hlabel; cbn [mbind option_bind].
    + destruct (handler ctx req) as [resp err took|] eqn:Hret.
      * destruct (forallb utf8.ValidString
                    [(splitMethodName (FullMethod info)).1;
                     (splitMethodName (FullMethod info)).2; label]) eqn:Hv.
        -- rewrite (v1_interceptor_run _ _ _ _ _ _ _ _ _ Hk Hlabel Hret Hv).
           split; [|by eexists]. intros _. split; by eauto.
        -- rewrite (v1_interceptor_rejected _ _ _ _ _ _ _ _ _
                      Hlabel Hret Hv).
           split; [by intros [? ?]|].
           intros [(lvs & Hlvs & Hvalid) _]. injection Hlvs as <-.
           congruence.
      * unfold V1.UnaryServerInterceptor.
        destruct (splitMethodName (FullMethod info)).
        rewrite Hlabel, Hret. cbn [mbind option_bind].
        split; [by intros [? ?]|by intros [_ (? & ? & ? & ?)]].
    + unfold V1.UnaryServerInterceptor.
      destruct (splitMethodName (FullMethod info)).
      rewrite Hlabel. cbn [mbind option_bind].
      split; [by intros [? ?]|by intros [(? & ? & ?) _]].
  - unfold V1.tupleOf. destruct req as [[t|]|v]; cbn; split; done.
  - unfold V1.UnaryServerInterceptor.
    by destruct (splitMethodName (FullMethod info)).
Qed.

Lemma v1_callsOn_cons lvs
    (c : Ctx * V1.request Other * UnaryServerInfo
         * @V1.UnaryHandler Ctx Other Resp) calls :
  V1.callsOn lvs (c :: calls)
  = ((if decide (V1.tupleOf c.1.2 c.1.1.2 = Some lvs) then 1 else 0)
     + V1.callsOn lvs calls)%nat.
Proof. unfold V1.callsOn. rewrite filter_cons. by case_decide. Qed.

(** X17. After a list of calls served by the first version every tuple's
    counter has gone up by the number of calls that resolve to the tuple,
    and its histogram has gained as many samples. *)
Theorem v1_serve_counts
    (calls : list (Ctx * V1.request Other * UnaryServerInfo
                   * @V1.UnaryHandler Ctx Other Resp)) w w' lvs :
  V1.keyed (V1.registry w) →
  V1.serve calls w = Some w' →
  prom.counter_value (V1.serverHandledCounter (V1.registry w')) lvs
  = (prom.counter_value (V1.serverHandledCounter (V1.registry w)) lvs
     + N.of_nat (V1.callsOn lvs calls))%N
  ∧ length (prom.histogram_samples
              (V1.serverHandledHistogram (V1.registry w')) lvs)
    = (length (prom.histogram_samples
                 (V1.serverHandledHistogram (V1.registry w)) lvs)
       + V1.callsOn lvs calls)%nat.
Proof.
  revert w. induction calls as [|[[[ctx req] info] handler] calls IH];
    intros w Hk Hserve.
  - injection Hserve as <-. unfold V1.callsOn. cbn. split; lia.
  - cbn [V1.serve] in Hserve.
    destruct (V1.UnaryServerInterceptor ctx req info handler w)
      as [[r w1]|] eqn:Hrun; [|done].
    destruct (v1_interceptor_step _ _ _ _ _ _ _ Hk Hrun)
      as (lvs0 & elapsed & Htuple & Hreg).
    apply IH in Hserve as [Hc Hh];
      [|rewrite Hreg; by apply v1_keyed_Observe].
    rewrite Hc, Hh, Hreg, v1_callsOn_cons. cbn [fst snd]. rewrite Htuple.
    unfold V1.Observe, prom.counter_value, prom.histogram_samples.
    cbn [V1.serverHandledCounter V1.serverHandledHistogram
         prom.cv_children prom.hv_children].
    case_decide as Heq.
    + injection Heq as Heq. rewrite Heq, !lookup_insert_eq.
      cbn [default from_option id]. rewrite length_app.
      cbn [length]. split; lia.
    + rewrite !lookup_insert_ne by congruence. split; lia.
Qed.

End V1Properties.

(** ** The further properties at work on the demo service *)

Section MoreDemo.

Lemma interceptor_keeps_label_set_witness :
  ∃ r (w' : DemoWorld),
    UnaryServerInterceptor customLabelExtractor tt helloRequest sayHelloInfo
      (SayHello 10) (startWorld 100) = Some (r, w')
    ∧ ServerMetrics.labels (registry w')
      = ServerMetrics.labels (registry (startWorld 100)).
Proof.
  destruct (UnaryServerInterceptor customLabelExtractor tt helloRequest
              sayHelloInfo (SayHello 10) (startWorld 100))
    as [[r w']|] eqn:Hrun; [|vm_compute in Hrun; discriminate].
  exists r, w'. split; [reflexivity|].
  exact (proj1 (interceptor_keeps_label_set customLabelExtractor tt
                  helloRequest sayHelloInfo (SayHello 10) (startWorld 100)
                  r w' ltac:(split; reflexivity) Hrun)).
Defined.


Lemma counter_and_histogram_in_step_witness :
  ∃ r (w' : DemoWorld),
    UnaryServerInterceptor customLabelExtractor tt helloRequest sayHelloInfo
      (SayHello 10) (startWorld 100) = Some (r, w')
    ∧ prom.counter_value (ServerMetrics.serverHandledCounter (registry w'))
        ["greet.Greeter"; "SayHello"; "OK"; "jordi"]
      = N.of_nat
          (length (prom.histogram_samples
                     (ServerMetrics.serverHandledHistogram (registry w'))
                     ["greet.Greeter"; "SayHello"; "OK"; "jordi"])).
Proof.
  destruct (UnaryServerInterceptor customLabelExtractor tt helloRequest
              sayHelloInfo (SayHello 10) (startWorld 100))
    as [[r w']|] eqn:Hrun; [|vm_compute in Hrun; discriminate].
  exists r, w'. split; [reflexivity|].
  apply (counter_and_histogram_in_step customLabelExtractor w').
  exact (reachable_call _ (startWorld 100) tt helloRequest sayHelloInfo
           (SayHello 10) r w' (reachable_start _ 100) Hrun).
Defined.

Lemma series_only_grow_witness :
  ∃ r (w' : DemoWorld),
    UnaryServerInterceptor customLabelExtractor tt helloRequest sayHelloInfo
      (failingHandler codes.NotFound 7) busyWorld = Some (r, w')
    ∧ ∃ n', prom.cv_children
              (ServerMetrics.serverHandledCounter (registry w'))
              !! ["greet.Greeter"; "SayHello"; "OK"; "jordi"] = Some n'
            ∧ (1 ≤ n')%N.
Proof.
  destruct (UnaryServerInterceptor customLabelExtractor tt helloRequest
              sayHelloInfo (failingHandler codes.NotFound 7) busyWorld)
    as [[r w']|] eqn:Hrun; [|vm_compute in Hrun; discriminate].
  exists r, w'. split; [reflexivity|].
  apply (proj1 (series_only_grow customLabelExtractor tt helloRequest
                  sayHelloInfo (failingHandler codes.NotFound 7) busyWorld
                  r w' ["greet.Greeter"; "SayHello"; "OK"; "jordi"]
                  ltac:(split; reflexivity) Hrun) 1%N).
  vm_compute. reflexivity.
Defined.


Lemma serve_counts_witness :
  ∃ w' : DemoWorld,
    serve customLabelExtractor demoCalls (startWorld 100) = Some w'
    ∧ prom.counter_value (ServerMetrics.serverHandledCounter (registry w'))
        ["greet.Greeter"; "SayHello"; "OK"; "jordi"] = 2%N.
Proof.
  destruct (serve customLabelExtractor demoCalls (startWorld 100))
    as [w'|] eqn:Hserve; [|vm_compute in Hserve; discriminate].
  exists w'. split; [reflexivity|].
  etrans;
    [exact (proj1 (serve_counts customLabelExtractor demoCalls
                     (startWorld 100) w'
                     ["greet.Greeter"; "SayHello"; "OK"; "jordi"]
                     ltac:(split; reflexivity) Hserve))|].
  vm_compute. reflexivity.
Defined.

Lemma default_extractor_tuple_witness :
  ∃ w' : DemoWorld,
    UnaryServerInterceptor mkDefaultLabelExtractor tt helloRequest
      sayHelloInfo (SayHello 10)
      {| registry := NewServerMetrics (Ctx := unit) mkDefaultLabelExtractor;
         clock := 5; trace := [] |}
    = Some ((helloResponse, None), w')
    ∧ trace w' = [EvHandlerCall tt helloRequest;
                  EvHandlerReturn helloResponse None;
                  EvCounterInc ["greet.Greeter"; "SayHello"; "OK"];
                  EvHistogramObserve ["greet.Greeter"; "SayHello"; "OK"] 10].
Proof.
  apply (default_extractor_tuple mkDefaultLabelExtractor tt helloRequest
           sayHelloInfo (SayHello 10) helloResponse None 10 _
           (reachable_start _ 5) eq_refl ltac:(vm_compute; reflexivity)).
Defined.

Lemma custom_extractor_tuple_witness :
  ∃ w' : DemoWorld,
    UnaryServerInterceptor customLabelExtractor tt helloRequest
      {| FullMethod := "health" |} (failingHandler codes.Unavailable 2)
      (startWorld 100)
    = Some (({| Message := EmptyString |},
             Some (wrapError "lookup"
                     (statusError {| status.code := codes.Unavailable;
                                     status.message := "failed" |}))), w')
    ∧ trace w'
      = [EvHandlerCall tt helloRequest;
         EvHandlerReturn {| Message := EmptyString |}
           (Some (wrapError "lookup"
                    (statusError {| status.code := codes.Unavailable;
                                    status.message := "failed" |})));
         EvCounterInc ["unknown"; "unknown"; "Unavailable"; "jordi"];
         EvHistogramObserve ["unknown"; "unknown"; "Unavailable"; "jordi"] 2].
Proof.
  apply (custom_extractor_tuple customLabelExtractor tt helloRequest
           {| FullMethod := "health" |} (failingHandler codes.Unavailable 2)
           _ _ 2 _ (reachable_start _ 100) eq_refl
           ltac:(vm_compute; reflexivity)).
Defined.

Lemma observed_duration_spans_the_handler_witness :
  ∃ lvs (w' : DemoWorld),
    UnaryServerInterceptor customLabelExtractor tt helloRequest sayHelloInfo
      (SayHello 10) (startWorld 100) = Some ((helloResponse, None), w')
    ∧ last (trace w') = Some (EvHistogramObserve lvs (clock w' - 100))
    ∧ clock w' = 110.
Proof.
  apply (observed_duration_spans_the_handler customLabelExtractor tt
           helloRequest sayHelloInfo (SayHello 10) helloResponse None 10
           (startWorld 100) ltac:(split; reflexivity) eq_refl
           ltac:(vm_compute; reflexivity)).
Defined.

Lemma duplicate_names_get_equal_values_witness :
  ∃ lvs (w' : DemoWorld),
    UnaryServerInterceptor duplicatingExtractor tt helloRequest sayHelloInfo
      (SayHello 10) duplicatingWorld = Some ((helloResponse, None), w')
    ∧ In (EvCounterInc lvs) (trace w')
    ∧ lvs !! 1%nat = lvs !! 4%nat.
Proof.
  destruct (duplicate_names_get_equal_values duplicatingExtractor tt
              helloRequest sayHelloInfo (SayHello 10) helloResponse None 10
              duplicatingWorld ltac:(split; reflexivity) eq_refl
              ltac:(vm_compute; reflexivity))
    as (lvs & elapsed & w' & Hrun & Htr & Hdup).
  exists lvs, w'. split; [exact Hrun|]. split; [rewrite Htr; cbn; tauto|].
  apply (Hdup 1%nat 4%nat "grpc_method"); reflexivity.
Defined.

Lemma v1_commits_exactly_once_witness :
  ∃ w',
    V1.UnaryServerInterceptor tt (V1.helloRequestPtr (Some helloRequest))
      sayHelloInfo (V1.SayHello 10) (V1.startWorld 100)
    = Some ((helloResponse, None), w')
    ∧ prom.counter_value (V1.serverHandledCounter (V1.registry w'))
        ["greet.Greeter"; "SayHello"; "World"] = 1%N.
Proof.
  destruct (proj1 (v1_commits_exactly_once tt
                     (V1.helloRequestPtr (Some helloRequest)) sayHelloInfo
                     (V1.SayHello 10) "World" helloResponse None 10
                     (V1.startWorld 100) ltac:(split; reflexivity)
                     eq_refl eq_refl)
              ltac:(vm_compute; reflexivity))
    as (w' & Hrun & _ & Hc & _).
  exists w'. split; [exact Hrun|].
  etrans; [exact Hc|]. vm_compute. reflexivity.
Defined.

Lemma v1_outcome_is_not_recorded_witness :
  ∃ w1 w2,
    V1.UnaryServerInterceptor tt (V1.helloRequestPtr (Some helloRequest))
      sayHelloInfo (V1.SayHello 10) (V1.startWorld 100)
    = Some ((helloResponse, None), w1)
    ∧ V1.UnaryServerInterceptor tt (V1.helloRequestPtr (Some helloRequest))
        sayHelloInfo
        (λ _ _, Returned helloResponse (Some (opaqueError "boom")) 10)
        (V1.startWorld 100)
      = Some ((helloResponse, Some (opaqueError "boom")), w2)
    ∧ V1.registry w1 = V1.registry w2.
Proof.
  destruct (v1_outcome_is_not_recorded tt
              (V1.helloRequestPtr (Some helloRequest)) sayHelloInfo
              (V1.SayHello 10)
              (λ _ _, Returned helloResponse (Some (opaqueError "boom")) 10)
              "World" helloResponse None helloResponse
              (Some (opaqueError "boom")) 10 (V1.startWorld 100)
              ltac:(split; reflexivity) eq_refl eq_refl eq_refl
              ltac:(vm_compute; reflexivity))
    as (w1 & w2 & H1 & H2 & Hreg & _).
  exists w1, w2. split; [exact H1|]. split; [exact H2|exact Hreg].
Defined.

Lemma v1_returns_iff_witness :
  is_Some (V1.UnaryServerInterceptor tt
             (V1.helloRequestPtr (Some helloRequest)) sayHelloInfo
             (V1.SayHello 10) (V1.startWorld 100))
  ∧ ¬ is_Some (V1.UnaryServerInterceptor tt
                 (V1.helloRequestPtr (Some invalidNameRequest)) sayHelloInfo
                 (V1.SayHello 10) (V1.startWorld 100))
  ∧ V1.UnaryServerInterceptor tt (V1.helloRequestPtr None) sayHelloInfo
      (λ _ _, Returned helloResponse None 10) (V1.startWorld 100) = None.
Proof.
  split; [|split].
  - apply (proj1 (v1_returns_iff tt (V1.helloRequestPtr (Some helloRequest))
                    sayHelloInfo (V1.SayHello 10) (V1.startWorld 100)
                    ltac:(split; reflexivity))).
    split.
    + eexists. split; [reflexivity|vm_compute; reflexivity].
    + by eexists _, _, _.
  - intros Hsome.
    apply (proj1 (v1_returns_iff tt
                    (V1.helloRequestPtr (Some invalidNameRequest))
                    sayHelloInfo (V1.SayHello 10) (V1.startWorld 100)
                    ltac:(split; reflexivity))) in Hsome
      as [(lvs & Hlvs & Hvalid) _].
    injection Hlvs as <-. vm_compute in Hvalid. discriminate.
  - apply (proj2 (proj2 (v1_returns_iff tt (V1.helloRequestPtr None)
                           sayHelloInfo
                           (λ _ _, Returned helloResponse None 10)
                           (V1.startWorld 100) ltac:(split; reflexivity)))).
Defined.

Lemma v1_serve_counts_witness :
  ∃ w',
    V1.serve (v1ClientRound ++ v1ClientRound) (V1.startWorld 100) = Some w'
    ∧ prom.counter_value (V1.serverHandledCounter (V1.registry w'))
        ["greet.Greeter"; "SayHello"; "Test111"] = 2%N.
Proof.
  destruct (V1.serve (v1ClientRound ++ v1ClientRound) (V1.startWorld 100))
    as [w'|] eqn:Hserve; [|vm_compute in Hserve; discriminate].
  exists w'. split; [reflexivity|].
  etrans;
    [exact (proj1 (v1_serve_counts (v1ClientRound ++ v1ClientRound)
                     (V1.startWorld 100) w'
                     ["greet.Greeter"; "SayHello"; "Test111"]
                     ltac:(split; reflexivity) Hserve))|].
  vm_compute. reflexivity.
Defined.

End MoreDemo.
